(** * Guess the number: the [Game] module of js/leaderboard.js

    A shallow embedding of the game engine (the [Game] closure: secret,
    attempt and hint budgets, countdown timer, guess analysis, scoring and
    the redacted state snapshot) together with the properties of its
    command interface.

    Conventions of the embedding
    - JavaScript numbers that hold counters and seconds are [Z]; the two
      budgets [maxAttempts] and [maxHints], which [setDifficulty] can leave
      [undefined], are [option Z] with [None] for [undefined], and a
      difference with such a budget is [None] for [NaN].
    - Strings are [string]; [s.split('')] is the list of its characters and
      [a[i]] out of range is [undefined], here [None].
    - A JS [Map] is an association list in insertion order.
    - The closure variables form the record [Game]; every function of the
      module is a computation in a small state-and-log monad [M]: it reads
      and writes the variables and appends the callbacks it invokes to a log.
    - What the host supplies during a call ([Math.random], [Date]) is passed
      in as a [host] record; [setInterval]/[clearInterval] act on the list of
      live interval handles kept next to the variables.
    - [console.log] is not modelled. *)

From Stdlib Require Import ZArith List String Ascii Bool Lia PeanoNat.
From Stdlib Require Import DecimalString Sorted.
Import ListNotations.

Local Open Scope string_scope.
Local Open Scope Z_scope.

(** ** Strings and numbers *)

(** [\d] of a JS regular expression (no [u] flag): the ten ASCII digits. *)
Definition is_digit (c : ascii) : bool :=
  (48 <=? Z.of_nat (nat_of_ascii c)) && (Z.of_nat (nat_of_ascii c) <=? 57).

(** [/^\d{4}$/.test(guess)] *)
Definition test_4digits (guess : string) : bool :=
  match guess with
  | String a (String b (String c (String d EmptyString))) =>
      is_digit a && is_digit b && is_digit c && is_digit d
  | _ => false
  end.

(** [n.toString()] for an integer-valued number. *)
Definition toString (n : Z) : string := NilZero.string_of_int (Z.to_int n).

Fixpoint string_repeat (c : ascii) (n : nat) : string :=
  match n with
  | O => EmptyString
  | S k => String c (string_repeat c k)
  end.

(** [s.padStart(targetLength, c)] for a one-character pad string. *)
Definition padStart (targetLength : nat) (c : ascii) (s : string) : string :=
  string_repeat c (targetLength - String.length s) ++ s.

(** [s.split('')] *)
Definition split_chars (s : string) : list ascii := list_ascii_of_string s.

(** [a[i]] on an array of characters. *)
Definition index (a : list ascii) (i : nat) : option ascii := nth_error a i.

Definition undef_eqb (x y : option ascii) : bool :=
  match x, y with
  | Some a, Some b => Ascii.eqb a b
  | None, None => true
  | _, _ => false
  end.

(** ** JS [Map] keyed by array elements, in insertion order *)

Definition jsmap := list (option ascii * Z).

Fixpoint map_get (m : jsmap) (k : option ascii) : option Z :=
  match m with
  | [] => None
  | (k', v) :: rest => if undef_eqb k' k then Some v else map_get rest k
  end.

Definition map_has (m : jsmap) (k : option ascii) : bool :=
  match map_get m k with Some _ => true | None => false end.

Fixpoint map_set (m : jsmap) (k : option ascii) (v : Z) : jsmap :=
  match m with
  | [] => [(k, v)]
  | (k', v') :: rest =>
      if undef_eqb k' k then (k', v) :: rest else (k', v') :: map_set rest k v
  end.

(** [m.get(k) || 0] *)
Definition get_or_0 (m : jsmap) (k : option ascii) : Z :=
  match map_get m k with
  | Some v => if v =? 0 then 0 else v
  | None => 0
  end.

(** ** Records of the engine *)

Record analysis := mkAnalysis { exact : Z; partial : Z }.

Record guessEntry := mkEntry {
  attempt : Z;
  sequence : string;
  entry_exact : Z;
  entry_partial : Z;
  time : string
}.

(** The object returned by [getState()]. *)
Record snapshot := mkSnapshot {
  snap_secret : string;
  snap_attempts : Z;
  snap_maxAttempts : option Z;
  snap_gameOver : bool;
  snap_guesses : list guessEntry;
  snap_hintsUsed : Z;
  snap_maxHints : option Z;
  snap_remainingAttempts : option Z;
  snap_remainingHints : option Z;
  snap_difficulty : string;
  snap_timerMode : bool;
  snap_timeLeft : Z;
  snap_timerDuration : Z;
  snap_score : Z
}.

(** Second argument of [onGameEnd]: [{attempts, score}] on a win,
    [{secret}] on a loss, absent for 'timeout' and 'attempts'. *)
Inductive payload :=
| NoPayload
| WinPayload (attempts score : Z)
| LosePayload (secret : string).

(** A callback invocation. *)
Inductive event :=
| OnUpdate (state : snapshot)
| OnTimerTick (timeLeft : Z)
| OnGameEnd (outcome : string) (data : payload).

(** The result objects of [makeGuess] and [useHint], by shape. *)
Inductive result :=
| Failure (message : string)
| Won (message : string) (score : Z)
| Feedback (feedback : analysis) (message : string)
| HintGiven (position : Z) (digit : option ascii) (remaining : option Z).

(** The [callbacks] argument of [init]: which of the three are supplied. *)
Record callbacks := mkCallbacks {
  cb_onUpdate : bool;
  cb_onTimerTick : bool;
  cb_onGameEnd : bool
}.

(** What the host returns during one call of the module:
    [Math.floor(Math.random() * 10000)], [Math.floor(Math.random() * 4)],
    [Date.now()] and [new Date().toLocaleTimeString()]. *)
Record host := mkHost {
  random10000 : Z;
  random4 : nat;
  now : Z;
  localeTime : string
}.

Definition host_ok (h : host) : bool :=
  (0 <=? random10000 h) && (random10000 h <? 10000) && (random4 h <? 4)%nat.

(** The private variables of the closure, the three callbacks (present or
    [null]), and the host's interval table. *)
Record Game := mkGame {
  secret : string;
  attempts : Z;
  maxAttempts : option Z;
  gameOver : bool;
  guesses : list guessEntry;
  hintsUsed : Z;
  maxHints : option Z;
  difficulty : string;
  timerMode : bool;
  timerDuration : Z;
  timerInterval : option positive;
  timeLeft : Z;
  startTime : option Z;
  onUpdate : bool;
  onTimerTick : bool;
  onGameEnd : bool;
  intervals : list positive;
  nextHandle : positive
}.

Definition set_secret (v : string) (g : Game) : Game :=
  mkGame v (attempts g) (maxAttempts g) (gameOver g) (guesses g) (hintsUsed g)
    (maxHints g) (difficulty g) (timerMode g) (timerDuration g)
    (timerInterval g) (timeLeft g) (startTime g) (onUpdate g) (onTimerTick g)
    (onGameEnd g) (intervals g) (nextHandle g).

Definition set_attempts (v : Z) (g : Game) : Game :=
  mkGame (secret g) v (maxAttempts g) (gameOver g) (guesses g) (hintsUsed g)
    (maxHints g) (difficulty g) (timerMode g) (timerDuration g)
    (timerInterval g) (timeLeft g) (startTime g) (onUpdate g) (onTimerTick g)
    (onGameEnd g) (intervals g) (nextHandle g).

Definition set_maxAttempts (v : option Z) (g : Game) : Game :=
  mkGame (secret g) (attempts g) v (gameOver g) (guesses g) (hintsUsed g)
    (maxHints g) (difficulty g) (timerMode g) (timerDuration g)
    (timerInterval g) (timeLeft g) (startTime g) (onUpdate g) (onTimerTick g)
    (onGameEnd g) (intervals g) (nextHandle g).

Definition set_gameOver (v : bool) (g : Game) : Game :=
  mkGame (secret g) (attempts g) (maxAttempts g) v (guesses g) (hintsUsed g)
    (maxHints g) (difficulty g) (timerMode g) (timerDuration g)
    (timerInterval g) (timeLeft g) (startTime g) (onUpdate g) (onTimerTick g)
    (onGameEnd g) (intervals g) (nextHandle g).

Definition set_guesses (v : list guessEntry) (g : Game) : Game :=
  mkGame (secret g) (attempts g) (maxAttempts g) (gameOver g) v (hintsUsed g)
    (maxHints g) (difficulty g) (timerMode g) (timerDuration g)
    (timerInterval g) (timeLeft g) (startTime g) (onUpdate g) (onTimerTick g)
    (onGameEnd g) (intervals g) (nextHandle g).

Definition set_hintsUsed (v : Z) (g : Game) : Game :=
  mkGame (secret g) (attempts g) (maxAttempts g) (gameOver g) (guesses g) v
    (maxHints g) (difficulty g) (timerMode g) (timerDuration g)
    (timerInterval g) (timeLeft g) (startTime g) (onUpdate g) (onTimerTick g)
    (onGameEnd g) (intervals g) (nextHandle g).

Definition set_maxHints (v : option Z) (g : Game) : Game :=
  mkGame (secret g) (attempts g) (maxAttempts g) (gameOver g) (guesses g)
    (hintsUsed g) v (difficulty g) (timerMode g) (timerDuration g)
    (timerInterval g) (timeLeft g) (startTime g) (onUpdate g) (onTimerTick g)
    (onGameEnd g) (intervals g) (nextHandle g).

Definition set_difficulty (v : string) (g : Game) : Game :=
  mkGame (secret g) (attempts g) (maxAttempts g) (gameOver g) (guesses g)
    (hintsUsed g) (maxHints g) v (timerMode g) (timerDuration g)
    (timerInterval g) (timeLeft g) (startTime g) (onUpdate g) (onTimerTick g)
    (onGameEnd g) (intervals g) (nextHandle g).

Definition set_timerMode (v : bool) (g : Game) : Game :=
  mkGame (secret g) (attempts g) (maxAttempts g) (gameOver g) (guesses g)
    (hintsUsed g) (maxHints g) (difficulty g) v (timerDuration g)
    (timerInterval g) (timeLeft g) (startTime g) (onUpdate g) (onTimerTick g)
    (onGameEnd g) (intervals g) (nextHandle g).

Definition set_timerDuration (v : Z) (g : Game) : Game :=
  mkGame (secret g) (attempts g) (maxAttempts g) (gameOver g) (guesses g)
    (hintsUsed g) (maxHints g) (difficulty g) (timerMode g) v
    (timerInterval g) (timeLeft g) (startTime g) (onUpdate g) (onTimerTick g)
    (onGameEnd g) (intervals g) (nextHandle g).

Definition set_timerInterval (v : option positive) (g : Game) : Game :=
  mkGame (secret g) (attempts g) (maxAttempts g) (gameOver g) (guesses g)
    (hintsUsed g) (maxHints g) (difficulty g) (timerMode g) (timerDuration g)
    v (timeLeft g) (startTime g) (onUpdate g) (onTimerTick g)
    (onGameEnd g) (intervals g) (nextHandle g).

Definition set_timeLeft (v : Z) (g : Game) : Game :=
  mkGame (secret g) (attempts g) (maxAttempts g) (gameOver g) (guesses g)
    (hintsUsed g) (maxHints g) (difficulty g) (timerMode g) (timerDuration g)
    (timerInterval g) v (startTime g) (onUpdate g) (onTimerTick g)
    (onGameEnd g) (intervals g) (nextHandle g).

Definition set_startTime (v : option Z) (g : Game) : Game :=
  mkGame (secret g) (attempts g) (maxAttempts g) (gameOver g) (guesses g)
    (hintsUsed g) (maxHints g) (difficulty g) (timerMode g) (timerDuration g)
    (timerInterval g) (timeLeft g) v (onUpdate g) (onTimerTick g)
    (onGameEnd g) (intervals g) (nextHandle g).

Definition set_callbacks (c : callbacks) (g : Game) : Game :=
  mkGame (secret g) (attempts g) (maxAttempts g) (gameOver g) (guesses g)
    (hintsUsed g) (maxHints g) (difficulty g) (timerMode g) (timerDuration g)
    (timerInterval g) (timeLeft g) (startTime g) (cb_onUpdate c)
    (cb_onTimerTick c) (cb_onGameEnd c) (intervals g) (nextHandle g).

Definition set_host_intervals (l : list positive) (n : positive) (g : Game) : Game :=
  mkGame (secret g) (attempts g) (maxAttempts g) (gameOver g) (guesses g)
    (hintsUsed g) (maxHints g) (difficulty g) (timerMode g) (timerDuration g)
    (timerInterval g) (timeLeft g) (startTime g) (onUpdate g) (onTimerTick g)
    (onGameEnd g) l n.

(** The variables as the module initialises them, before any call. *)
Definition initial : Game :=
  {| secret := ""; attempts := 0; maxAttempts := Some 15; gameOver := false;
     guesses := []; hintsUsed := 0; maxHints := Some 3; difficulty := "medium";
     timerMode := false; timerDuration := 0; timerInterval := None;
     timeLeft := 0; startTime := None;
     onUpdate := false; onTimerTick := false; onGameEnd := false;
     intervals := []; nextHandle := 1%positive |}.

(** The own properties of the object [DIFFICULTY_SETTINGS]: level, with
    its [attempts] and [hints]. *)
Definition DIFFICULTY_SETTINGS : list (string * (Z * Z)) :=
  [ ("easy", (6, 5)); ("medium", (15, 3)); ("hard", (15, 0)) ].

(** Own-property lookup in the table. *)
Fixpoint lookup_setting (table : list (string * (Z * Z))) (level : string)
  : option (Z * Z) :=
  match table with
  | [] => None
  | (k, v) :: rest => if String.eqb k level then Some v else lookup_setting rest level
  end.

(** The property names an object literal inherits from [Object.prototype].
    Under each of them [DIFFICULTY_SETTINGS[level]] is a function (or, for
    [__proto__], the prototype object): a truthy value that has neither an
    [attempts] nor a [hints] property. *)
Definition Object_prototype_names : list string :=
  [ "constructor"; "hasOwnProperty"; "isPrototypeOf"; "propertyIsEnumerable";
    "toLocaleString"; "toString"; "valueOf"; "__proto__";
    "__defineGetter__"; "__defineSetter__"; "__lookupGetter__";
    "__lookupSetter__" ].

Definition inherited_name (level : string) : bool :=
  existsb (String.eqb level) Object_prototype_names.

(** [DIFFICULTY_SETTINGS[level]]: [None] when the lookup is [undefined];
    otherwise the [attempts] and [hints] properties of what it finds, each
    [None] when [undefined]. Own properties come first, then the prototype. *)
Definition settings_get (level : string) : option (option Z * option Z) :=
  match lookup_setting DIFFICULTY_SETTINGS level with
  | Some (attempts, hints) => Some (Some attempts, Some hints)
  | None => if inherited_name level then Some (None, None) else None
  end.

(** [n >= budget]: a comparison with [undefined] is false. *)
Definition js_ge (n : Z) (budget : option Z) : bool :=
  match budget with
  | Some v => n >=? v
  | None => false
  end.

(** [budget - n]: [NaN] when the budget is [undefined]. *)
Definition js_minus (budget : option Z) (n : Z) : option Z :=
  match budget with
  | Some v => Some (v - n)
  | None => None
  end.

(** ** The state-and-log monad *)

Definition M (A : Type) : Type := Game -> A * Game * list event.

Definition ret {A} (a : A) : M A := fun g => (a, g, []).

Definition bind {A B} (m : M A) (f : A -> M B) : M B :=
  fun g =>
    let '(a, g1, l1) := m g in
    let '(b, g2, l2) := f a g1 in
    (b, g2, l1 ++ l2)%list.

Definition get : M Game := fun g => (g, g, []).
Definition modify (f : Game -> Game) : M unit := fun g => (tt, f g, []).
Definition when (b : bool) (m : M unit) : M unit := if b then m else ret tt.

(** [if (callback) callback(...)]: the invocation is logged when the
    callback is registered. *)
Definition notify (registered : bool) (e : event) : M unit :=
  fun g => (tt, g, if registered then [e] else []).

Notation "x <- m ;; k" := (bind m (fun x => k))
  (at level 61, m at next level, right associativity).
Notation "m ;;; k" := (bind m (fun _ => k))
  (at level 61, right associativity).

Definition value_of {A} (r : A * Game * list event) : A := fst (fst r).
Definition state_of {A} (r : A * Game * list event) : Game := snd (fst r).
Definition log_of {A} (r : A * Game * list event) : list event := snd r.

(** ** The functions of the module *)

(** [analyzeGuess]: one round of the loop over [i = 0..3]. *)
Definition analyze_round (target attempt : list ascii) (i : nat)
  (acc : Z * jsmap * jsmap) : Z * jsmap * jsmap :=
  let '(exact, targetFreq, guessFreq) := acc in
  if undef_eqb (index attempt i) (index target i) then
    (exact + 1, targetFreq, guessFreq)
  else
    (exact,
     map_set targetFreq (index target i) (get_or_0 targetFreq (index target i) + 1),
     map_set guessFreq (index attempt i) (get_or_0 guessFreq (index attempt i) + 1)).

(** [analyzeGuess]: one round of the loop over the entries of [guessFreq]. *)
Definition partial_round (targetFreq : jsmap) (partial : Z)
  (entry : option ascii * Z) : Z :=
  let '(digit, count) := entry in
  if map_has targetFreq digit then
    partial + Z.min count (match map_get targetFreq digit with
                           | Some c => c
                           | None => 0
                           end)
  else partial.

Definition analyzeGuess (guess : string) (g : Game) : analysis :=
  let target := split_chars (secret g) in
  let attempt := split_chars guess in
  let '(exact, targetFreq, guessFreq) :=
    fold_left (fun acc i => analyze_round target attempt i acc)
      [0; 1; 2; 3]%nat (0, [], []) in
  let partial := fold_left (partial_round targetFreq) guessFreq 0 in
  {| exact := exact; partial := partial |}.

Definition calculateScore (attemptsUsed exactMatches : Z) (g : Game) : Z :=
  let baseScore := 1000 in
  let attemptPenalty := attemptsUsed * 50 in
  let hintPenalty := hintsUsed g * 100 in
  let timeBonus :=
    if timerMode g && (timeLeft g >? 0) then timeLeft g * 10 else 0 in
  let finalScore := baseScore - attemptPenalty - hintPenalty + timeBonus in
  Z.max finalScore 100.

Definition getState (g : Game) : snapshot :=
  {| snap_secret := if gameOver g then secret g else "????";
     snap_attempts := attempts g;
     snap_maxAttempts := maxAttempts g;
     snap_gameOver := gameOver g;
     snap_guesses := guesses g;
     snap_hintsUsed := hintsUsed g;
     snap_maxHints := maxHints g;
     snap_remainingAttempts := js_minus (maxAttempts g) (attempts g);
     snap_remainingHints := js_minus (maxHints g) (hintsUsed g);
     snap_difficulty := difficulty g;
     snap_timerMode := timerMode g;
     snap_timeLeft := timeLeft g;
     snap_timerDuration := timerDuration g;
     snap_score := calculateScore (attempts g) 0 g |}.

(** [if (onUpdate) onUpdate(getState())] *)
Definition notify_update : M unit :=
  g <- get ;; notify (onUpdate g) (OnUpdate (getState g)).

(** Host: [setInterval(callback, 1000)] registers a fresh handle. *)
Definition setInterval : M positive :=
  fun g =>
    (nextHandle g,
     set_host_intervals (nextHandle g :: intervals g) (Pos.succ (nextHandle g)) g,
     []).

(** Host: [clearInterval(h)] drops the handle from the live ones. *)
Definition clearInterval (h : positive) : M unit :=
  modify (fun g =>
    set_host_intervals (filter (fun x => negb (Pos.eqb x h)) (intervals g))
      (nextHandle g) g).

(** [if (timerInterval) { clearInterval(timerInterval); timerInterval = null; }] *)
Definition clear_timer : M unit :=
  g <- get ;;
  match timerInterval g with
  | Some h => clearInterval h ;;; modify (set_timerInterval None)
  | None => ret tt
  end.

Definition startTimer : M unit :=
  h <- setInterval ;; modify (set_timerInterval (Some h)).

Definition resetTimer : M unit :=
  clear_timer ;;;
  g <- get ;;
  when (timerMode g)
    (modify (set_timeLeft (timerDuration g)) ;;; startTimer).

(** The function handed to [setInterval] by [startTimer]: one tick. *)
Definition timer_callback : M unit :=
  modify (fun g => set_timeLeft (timeLeft g - 1) g) ;;;
  g <- get ;;
  notify (onTimerTick g) (OnTimerTick (timeLeft g)) ;;;
  when (timeLeft g <=? 0)
    (modify (set_gameOver true) ;;;
     clear_timer ;;;
     notify (onGameEnd g) (OnGameEnd "timeout" NoPayload)) ;;;
  notify_update.

Definition reset (h : host) : M unit :=
  modify (set_secret (padStart 4 "0" (toString (random10000 h)))) ;;;
  modify (set_attempts 0) ;;;
  modify (set_gameOver false) ;;;
  modify (set_guesses []) ;;;
  modify (set_hintsUsed 0) ;;;
  modify (set_startTime (Some (now h))) ;;;
  g <- get ;;
  when (timerMode g) resetTimer ;;;
  notify_update.

Definition init (cbs : callbacks) (h : host) : M snapshot :=
  modify (set_callbacks cbs) ;;;
  reset h ;;;
  g <- get ;;
  ret (getState g).

Definition setDifficulty (level : string) (h : host) : M unit :=
  match settings_get level with
  | None => ret tt
  | Some (attempts, hints) =>
      modify (set_difficulty level) ;;;
      modify (set_maxAttempts attempts) ;;;
      modify (set_maxHints hints) ;;;
      reset h
  end.

(** [seconds] is [None] when the caller omits it (default 60). *)
Definition setTimerMode (enabled : bool) (seconds : option Z) (h : host) : M unit :=
  let seconds := match seconds with Some v => v | None => 60 end in
  modify (set_timerMode enabled) ;;;
  modify (set_timerDuration seconds) ;;;
  (if enabled then resetTimer else clear_timer) ;;;
  reset h.

Definition makeGuess (guess : string) (h : host) : M result :=
  g <- get ;;
  if gameOver g then
    ret (Failure "Game over. Start new game.")
  else if js_ge (attempts g) (maxAttempts g) then
    modify (set_gameOver true) ;;;
    notify (onGameEnd g) (OnGameEnd "attempts" NoPayload) ;;;
    ret (Failure "Maximum attempts reached!")
  else if negb (test_4digits guess) then
    ret (Failure "Enter exactly 4 digits!")
  else
    let analysis := analyzeGuess guess g in
    modify (fun g => set_attempts (attempts g + 1) g) ;;;
    g <- get ;;
    let guessEntry :=
      {| attempt := attempts g; sequence := guess;
         entry_exact := exact analysis; entry_partial := partial analysis;
         time := localeTime h |} in
    modify (fun g => set_guesses (guessEntry :: guesses g) g) ;;;
    g <- get ;;
    let score := calculateScore (attempts g) (exact analysis) g in
    if exact analysis =? 4 then
      modify (set_gameOver true) ;;;
      clear_timer ;;;
      notify (onGameEnd g) (OnGameEnd "win" (WinPayload (attempts g) score)) ;;;
      notify_update ;;;
      ret (Won "🎉 ACCESS GRANTED! You win! 🎉" score)
    else
      when (js_ge (attempts g) (maxAttempts g))
        (modify (set_gameOver true) ;;;
         clear_timer ;;;
         notify (onGameEnd g) (OnGameEnd "lose" (LosePayload (secret g)))) ;;;
      notify_update ;;;
      ret (Feedback analysis
             ("Attempt " ++ toString (attempts g) ++ ": "
              ++ toString (exact analysis) ++ " exact, "
              ++ toString (partial analysis) ++ " partial")).

Definition useHint (h : host) : M result :=
  g <- get ;;
  if gameOver g then
    ret (Failure "Game is over!")
  else if js_ge (hintsUsed g) (maxHints g) then
    ret (Failure "No hints remaining!")
  else
    modify (fun g => set_hintsUsed (hintsUsed g + 1) g) ;;;
    let pos := random4 h in
    g <- get ;;
    let digit := String.get pos (secret g) in
    notify_update ;;;
    ret (HintGiven (Z.of_nat pos + 1) digit (js_minus (maxHints g) (hintsUsed g))).

(** ** Commands of the presentation layer and the host's timer *)

Inductive command :=
| Init (cbs : callbacks) (h : host)
| Reset (h : host)
| SetDifficulty (level : string) (h : host)
| SetTimerMode (enabled : bool) (seconds : option Z) (h : host)
| MakeGuess (guess : string) (h : host)
| UseHint (h : host)
| Tick (handle : positive).

Inductive response :=
| Done
| State (s : snapshot)
| Result (r : result).

Definition exec (c : command) : M response :=
  match c with
  | Init cbs h => s <- init cbs h ;; ret (State s)
  | Reset h => reset h ;;; ret Done
  | SetDifficulty level h => setDifficulty level h ;;; ret Done
  | SetTimerMode enabled seconds h => setTimerMode enabled seconds h ;;; ret Done
  | MakeGuess guess h => r <- makeGuess guess h ;; ret (Result r)
  | UseHint h => r <- useHint h ;; ret (Result r)
  | Tick _ => timer_callback ;;; ret Done
  end.

(** A command can happen in [g]: the host's draws are in range, and an
    interval fires only while its handle is live. *)
Definition permitted (c : command) (g : Game) : bool :=
  match c with
  | Init _ h | Reset h | SetDifficulty _ h | SetTimerMode _ _ h
  | MakeGuess _ h | UseHint h => host_ok h
  | Tick handle => existsb (Pos.eqb handle) (intervals g)
  end.

(** Running a list of commands: the final variables and the whole log. *)
Fixpoint run (cs : list command) (g : Game) : Game * list event :=
  match cs with
  | [] => (g, [])
  | c :: rest =>
      let r := exec c g in
      let '(g', l) := run rest (state_of r) in
      (g', (log_of r ++ l)%list)
  end.

Fixpoint all_permitted (cs : list command) (g : Game) : bool :=
  match cs with
  | [] => true
  | c :: rest => permitted c g && all_permitted rest (state_of (exec c g))
  end.

(** The states of the engine: whatever commands lead to from [initial]. *)
Inductive reachable : Game -> Prop :=
| reachable_initial : reachable initial
| reachable_exec c g :
    reachable g -> permitted c g = true -> reachable (state_of (exec c g)).

(** ** Guess analysis as the specification words it *)

Definition decimal_digits : list ascii :=
  ["0"; "1"; "2"; "3"; "4"; "5"; "6"; "7"; "8"; "9"]%char.

(** Number of times [c] occurs in [l]. *)
Fixpoint occurrences (c : ascii) (l : list ascii) : Z :=
  match l with
  | [] => 0
  | x :: rest => (if Ascii.eqb x c then 1 else 0) + occurrences c rest
  end.

(** The positions of secret and guess, paired. *)
Definition positions (S G : string) : list (ascii * ascii) :=
  combine (split_chars S) (split_chars G).

Definition is_exact (p : ascii * ascii) : bool := Ascii.eqb (fst p) (snd p).

(** Count of positions [i] where [S[i] == G[i]]. *)
Definition spec_exact (S G : string) : Z :=
  Z.of_nat (List.length (filter is_exact (positions S G))).

(** Digits of the secret, resp. the guess, at the non-exact positions. *)
Definition leftover_secret (S G : string) : list ascii :=
  map fst (filter (fun p => negb (is_exact p)) (positions S G)).

Definition leftover_guess (S G : string) : list ascii :=
  map snd (filter (fun p => negb (is_exact p)) (positions S G)).

Definition sumZ {A} (f : A -> Z) (l : list A) : Z :=
  fold_right (fun x acc => f x + acc) 0 l.

(** Sum over each digit value of the smaller of its two leftover counts. *)
Definition spec_partial (S G : string) : Z :=
  sumZ (fun d => Z.min (occurrences d (leftover_secret S G))
                       (occurrences d (leftover_guess S G)))
       decimal_digits.

(** ** Auxiliary definitions for the proofs about [analyzeGuess] *)

(** The frequency table the loop builds from a list of characters. *)
Definition tally_from (m : jsmap) (l : list ascii) : jsmap :=
  fold_left (fun m c => map_set m (Some c) (get_or_0 m (Some c) + 1)) l m.

(** One round of the position loop, on the pair found at that position. *)
Definition round_pair (acc : Z * jsmap * jsmap) (p : ascii * ascii)
  : Z * jsmap * jsmap :=
  let '(exact, targetFreq, guessFreq) := acc in
  if Ascii.eqb (snd p) (fst p) then (exact + 1, targetFreq, guessFreq)
  else
    (exact,
     map_set targetFreq (Some (fst p)) (get_or_0 targetFreq (Some (fst p)) + 1),
     map_set guessFreq (Some (snd p)) (get_or_0 guessFreq (Some (snd p)) + 1)).

(** The summand of [spec_partial], on map keys. *)
Definition key_credit (ls lg : list ascii) (k : option ascii) : Z :=
  match k with
  | Some c => Z.min (occurrences c ls) (occurrences c lg)
  | None => 0
  end.

(** ** Decimal digits of a four-digit number *)

Definition digit_values : list Z := [0; 1; 2; 3; 4; 5; 6; 7; 8; 9].

(** The character of the digit [d]. *)
Definition digit_char (d : Z) : ascii := ascii_of_nat (Z.to_nat (48 + d)).

Definition four_digit_string (a b c d : Z) : string :=
  String (digit_char a) (String (digit_char b)
    (String (digit_char c) (String (digit_char d) EmptyString))).

(** What [reset] makes of the number with decimal digits [a b c d]. *)
Definition secret_of_digits (a b c d : Z) : string :=
  padStart 4 "0" (toString (1000 * a + 100 * b + 10 * c + d)).

(** ** Invariants of the engine *)

(** Attempt numbers [n, n-1, ..., 1]. *)
Fixpoint descending (n : nat) : list Z :=
  match n with
  | O => []
  | S k => Z.of_nat (S k) :: descending k
  end.

(** The host's live handles are exactly the one the engine holds. *)
Definition timer_consistent (g : Game) : Prop :=
  intervals g = match timerInterval g with Some h => [h] | None => [] end.

Definition invariant (g : Game) : Prop :=
  0 <= attempts g /\
  0 <= hintsUsed g /\
  (forall a, maxAttempts g = Some a -> 0 < a /\ attempts g <= a) /\
  (forall hi, maxHints g = Some hi -> hintsUsed g <= hi) /\
  (gameOver g = false -> js_ge (attempts g) (maxAttempts g) = false) /\
  attempts g = Z.of_nat (List.length (guesses g)) /\
  map attempt (guesses g) = descending (List.length (guesses g)) /\
  timer_consistent g /\
  (timerInterval g <> None -> timerMode g = true /\ gameOver g = false) /\
  (secret g = "" \/ test_4digits (secret g) = true).

(** ** Vocabulary of the statements *)

(** [result.success] *)
Definition success (r : result) : bool :=
  match r with
  | Failure _ => false
  | _ => true
  end.

(** The secret a state holds replaced by another one. *)
Definition with_secret (s : string) (g : Game) : Game := set_secret s g.

(** A host whose draws are the secret number [n] and the hint position [p]. *)
Definition draws (n : Z) (p : nat) : host :=
  {| random10000 := n; random4 := p; now := 0; localeTime := "12:00:00" |}.

Definition all_callbacks : callbacks :=
  {| cb_onUpdate := true; cb_onTimerTick := true; cb_onGameEnd := true |}.

(** Successive calls of [useHint], one per host reading: the results and
    the final variables. *)
Fixpoint hints (hs : list host) (g : Game) : list result * Game :=
  match hs with
  | [] => ([], g)
  | h :: rest =>
      let r := useHint h g in
      let '(rs, g') := hints rest (state_of r) in
      (value_of r :: rs, g')
  end.

(** [makeGuess] answered with feedback: a valid guess that did not win. *)
Definition is_feedback (r : result) : bool :=
  match r with
  | Feedback _ _ => true
  | _ => false
  end.

(** A stretch of one game: only guesses, hints and timer ticks happen, and
    every guess is a valid one that does not win. *)
Fixpoint good_play (cs : list command) (g : Game) : bool :=
  match cs with
  | [] => true
  | c :: rest =>
      permitted c g &&
      match c with
      | MakeGuess guess h => is_feedback (value_of (makeGuess guess h g))
      | UseHint _ | Tick _ => true
      | _ => false
      end &&
      good_play rest (state_of (exec c g))
  end.

Fixpoint count_guesses (cs : list command) : Z :=
  match cs with
  | [] => 0
  | MakeGuess _ _ :: rest => 1 + count_guesses rest
  | _ :: rest => count_guesses rest
  end.

(** [onGameEnd('timeout')] invocations in a log. *)
Definition is_timeout (e : event) : bool :=
  match e with
  | OnGameEnd outcome _ => String.eqb outcome "timeout"
  | _ => false
  end.

Definition count_timeouts (l : list event) : Z :=
  Z.of_nat (List.length (filter is_timeout l)).

(** The durations handed to [setTimerMode] are non-negative, and positive
    when the timer is switched on. *)
Definition duration_ok (c : command) : bool :=
  match c with
  | SetTimerMode enabled seconds _ =>
      let s := match seconds with Some v => v | None => 60 end in
      if enabled then 1 <=? s else 0 <=? s
  | _ => true
  end.

Definition timer_invariant (g : Game) : Prop :=
  0 <= timerDuration g /\
  0 <= timeLeft g /\
  (timerMode g = true -> 1 <= timerDuration g /\ timeLeft g <= timerDuration g) /\
  (timerInterval g <> None -> 1 <= timeLeft g) /\
  (timerMode g = true -> gameOver g = false -> timerInterval g <> None).

(** ** Vocabulary of the further properties *)

(** The number a string of decimal digits denotes. *)
Fixpoint digits_value (acc : Z) (s : string) : Z :=
  match s with
  | EmptyString => acc
  | String c rest => digits_value (10 * acc + (Z.of_nat (nat_of_ascii c) - 48)) rest
  end.

(** The commands that play the current game on: they start no new one. *)
Definition in_game (c : command) : bool :=
  match c with
  | MakeGuess _ _ | UseHint _ | Tick _ => true
  | _ => false
  end.

Definition is_won (r : result) : bool :=
  match r with
  | Won _ _ => true
  | _ => false
  end.

(** ** The caller that saves a finished game (js/ui.js) *)

(** The [scoreData] object [saveScoreWithName] builds from the snapshot. *)
Record scoreData := mkScoreData {
  sd_score : Z;
  sd_attempts : Z;
  sd_time : Z;
  sd_difficulty : string;
  sd_hintsUsed : Z;
  sd_won : bool
}.

(** [saveScoreWithName]: the part between [Game.getState()] and
    [Leaderboard.addScore]. *)
Definition saveScore_data (g : Game) : scoreData :=
  let state := getState g in
  {| sd_score := calculateScore (snap_attempts state) 4 g;
     sd_attempts := snap_attempts state;
     sd_time := if snap_timerMode state
                then snap_timerDuration state - snap_timeLeft state
                else 0;
     sd_difficulty := snap_difficulty state;
     sd_hintsUsed := snap_hintsUsed state;
     sd_won := true |}.

(** ** The [Leaderboard] module: its queries *)

Module Leaderboard.

(** A score entry as [addScore] creates it. *)
Record entry := mkScore {
  id : string;
  player : string;
  score : Z;
  attempts : Z;
  time : Z;
  difficulty : string;
  date : string;
  timestamp : Z
}.

(** [a.slice(0, end)] for an integer [end]: a negative [end] counts from
    the end of the array. *)
Definition slice0 {A} (end_ : Z) (a : list A) : list A :=
  let len := Z.of_nat (List.length a) in
  let final := if end_ <? 0 then Z.max (len + end_) 0 else Z.min end_ len in
  firstn (Z.to_nat final) a.

(** [a.findIndex(p)], counting from [i]. *)
Fixpoint findIndex_from {A} (i : Z) (p : A -> bool) (a : list A) : Z :=
  match a with
  | [] => -1
  | x :: rest => if p x then i else findIndex_from (i + 1) p rest
  end.

Definition findIndex {A} (p : A -> bool) (a : list A) : Z :=
  findIndex_from 0 p a.

Definition getScores (level : string) (scores : list entry) : list entry :=
  if String.eqb level "all" then scores
  else filter (fun s => String.eqb (difficulty s) level) scores.

Definition getTopScores (limit : Z) (level : string) (scores : list entry)
  : list entry :=
  let filtered :=
    if String.eqb level "all" then scores
    else filter (fun s => String.eqb (difficulty s) level) scores in
  slice0 limit filtered.

Definition getRank (score_ : Z) (scores : list entry) : Z :=
  let index := findIndex (fun s => score s <=? score_) scores in
  if index =? -1 then Z.of_nat (List.length scores) + 1 else index + 1.

(** The order [loadScores], [addScore] and [importScores] sort into:
    highest score first. *)
Definition by_score_desc (a b : entry) : Prop := score b <= score a.

End Leaderboard.

(** A leaderboard entry with the given score and difficulty. *)
Definition sample_entry (n : Z) (level : string) : Leaderboard.entry :=
  Leaderboard.mkScore "" "A" n 3 0 level "" 0.

(** ** Lemmas on the map model *)

Lemma undef_eqb_eq x y : undef_eqb x y = true <-> x = y.
Proof.
  destruct x as [a|], y as [b|]; simpl; split; intro H;
    try discriminate; try reflexivity.
  - apply Ascii.eqb_eq in H. now subst.
  - inversion H. apply Ascii.eqb_refl.
Qed.

Lemma undef_eqb_refl x : undef_eqb x x = true.
Proof. now apply undef_eqb_eq. Qed.

Lemma undef_eqb_neq x y : undef_eqb x y = false <-> x <> y.
Proof.
  split.
  - intros H E. apply undef_eqb_eq in E. congruence.
  - intro H. destruct (undef_eqb x y) eqn:E; [|reflexivity].
    apply undef_eqb_eq in E. contradiction.
Qed.

Lemma get_or_0_default m k :
  get_or_0 m k = match map_get m k with Some v => v | None => 0 end.
Proof.
  unfold get_or_0. destruct (map_get m k) as [v|]; [|reflexivity].
  destruct (v =? 0) eqn:E; [|reflexivity]. apply Z.eqb_eq in E. lia.
Qed.

Lemma map_get_set m k v k' :
  map_get (map_set m k v) k' = if undef_eqb k k' then Some v else map_get m k'.
Proof.
  induction m as [|[k0 v0] m IH]; simpl.
  - reflexivity.
  - destruct (undef_eqb k0 k) eqn:E0; simpl.
    + apply undef_eqb_eq in E0. subst k0.
      destruct (undef_eqb k k'); reflexivity.
    + destruct (undef_eqb k0 k') eqn:E1.
      * apply undef_eqb_eq in E1. subst k'.
        assert (undef_eqb k k0 = false) as ->; [|reflexivity].
        apply undef_eqb_neq. apply undef_eqb_neq in E0. congruence.
      * apply IH.
Qed.

Lemma map_get_None_keys m k : map_get m k = None -> ~ In k (map fst m).
Proof.
  induction m as [|[k0 v0] m IH]; simpl; intros H.
  - tauto.
  - destruct (undef_eqb k0 k) eqn:E; [discriminate|].
    apply undef_eqb_neq in E. intros [F|F]; [contradiction|]. now apply IH.
Qed.

Lemma map_set_keys m k v :
  map fst (map_set m k v) =
  if map_has m k then map fst m else (map fst m ++ [k])%list.
Proof.
  unfold map_has.
  induction m as [|[k0 v0] m IH]; simpl.
  - reflexivity.
  - destruct (undef_eqb k0 k) eqn:E; simpl.
    + reflexivity.
    + rewrite IH. destruct (map_get m k); reflexivity.
Qed.

Lemma map_set_NoDup m k v :
  NoDup (map fst m) -> NoDup (map fst (map_set m k v)).
Proof.
  intro H. rewrite map_set_keys. unfold map_has.
  destruct (map_get m k) eqn:E; [exact H|].
  apply map_get_None_keys in E.
  apply NoDup_app; [exact H | constructor; [tauto | constructor] |].
  intros a Ha [Hb|[]]. subst. contradiction.
Qed.

Lemma map_get_In m k v :
  NoDup (map fst m) -> In (k, v) m -> map_get m k = Some v.
Proof.
  induction m as [|[k0 v0] m IH]; simpl; intros ND HIn.
  - contradiction.
  - inversion ND as [|? ? Hnot ND']; subst.
    destruct HIn as [E|HIn].
    + inversion E; subst. now rewrite undef_eqb_refl.
    + destruct (undef_eqb k0 k) eqn:E.
      * apply undef_eqb_eq in E. subst k0. exfalso. apply Hnot.
        change k with (fst (k, v)). now apply in_map.
      * now apply IH.
Qed.


Lemma occurrences_nonneg c l : 0 <= occurrences c l.
Proof. induction l as [|x l IH]; simpl; [lia|]. destruct (Ascii.eqb x c); lia. Qed.

Lemma occurrences_In c l : 0 < occurrences c l -> In c l.
Proof.
  induction l as [|x l IH]; simpl; [lia|].
  destruct (Ascii.eqb x c) eqn:E.
  - apply Ascii.eqb_eq in E. auto.
  - intro H. right. apply IH. lia.
Qed.

Lemma tally_from_get l : forall m c,
  map_get (tally_from m l) (Some c) =
  if occurrences c l =? 0 then map_get m (Some c)
  else Some (get_or_0 m (Some c) + occurrences c l).
Proof.
  induction l as [|x l IH]; intros m c; simpl.
  - reflexivity.
  - unfold tally_from in *. rewrite IH. clear IH.
    pose proof (occurrences_nonneg c l) as Hn.
    rewrite map_get_set.
    rewrite (get_or_0_default (map_set _ _ _)), map_get_set. simpl.
    destruct (Ascii.eqb x c) eqn:E.
    + destruct (occurrences c l =? 0) eqn:E0.
      * apply Z.eqb_eq in E0. rewrite E0. simpl.
        apply Ascii.eqb_eq in E. subst x. reflexivity.
      * apply Z.eqb_neq in E0.
        destruct (1 + occurrences c l =? 0) eqn:E1;
          [apply Z.eqb_eq in E1; lia|].
        apply Ascii.eqb_eq in E. subst x. f_equal. lia.
    + destruct (occurrences c l =? 0) eqn:E0; simpl; rewrite E0.
      * reflexivity.
      * now rewrite get_or_0_default.
Qed.

Lemma tally_from_NoDup l : forall m,
  NoDup (map fst m) -> NoDup (map fst (tally_from m l)).
Proof.
  induction l as [|x l IH]; intros m H; simpl; [exact H|].
  apply IH. now apply map_set_NoDup.
Qed.

Lemma tally_from_keys l : forall m k,
  In k (map fst (tally_from m l)) ->
  In k (map fst m) \/ exists c, k = Some c /\ In c l.
Proof.
  induction l as [|x l IH]; intros m k H; simpl in *; [now left|].
  apply IH in H. destruct H as [H|[c [-> Hc]]].
  - rewrite map_set_keys in H. destruct (map_has m (Some x)); [now left|].
    apply in_app_or in H. destruct H as [H|[H|[]]]; [now left|].
    right. exists x. split; [now symmetry | now left].
  - right. exists c. split; [reflexivity | now right].
Qed.

(** ** Lemmas on sums *)

Lemma sumZ_app {A} (f : A -> Z) l1 l2 :
  sumZ f (l1 ++ l2) = sumZ f l1 + sumZ f l2.
Proof. induction l1 as [|x l1 IH]; simpl; [reflexivity | rewrite IH; lia]. Qed.

Lemma sumZ_zero {A} (f : A -> Z) l :
  (forall x, In x l -> f x = 0) -> sumZ f l = 0.
Proof.
  induction l as [|x l IH]; simpl; intro H; [reflexivity|].
  rewrite (H x), IH; auto.
Qed.

(** A sum over [B] only sees the duplicate-free sub-list [A] outside of
    which the summand vanishes. *)
Lemma sumZ_support {A} (f : A -> Z) (la : list A) : forall lb,
  NoDup la -> NoDup lb -> incl la lb ->
  (forall x, In x lb -> ~ In x la -> f x = 0) ->
  sumZ f la = sumZ f lb.
Proof.
  induction la as [|a la IH]; intros lb NDa NDb Hincl Hzero.
  - simpl. symmetry. apply sumZ_zero. intros x Hx. now apply Hzero.
  - inversion NDa as [|? ? Hna NDa']; subst.
    assert (In a lb) as Ha by (apply Hincl; now left).
    apply in_split in Ha. destruct Ha as [l1 [l2 ->]].
    rewrite sumZ_app. simpl.
    pose proof (NoDup_remove_1 _ _ _ NDb) as ND'.
    pose proof (NoDup_remove_2 _ _ _ NDb) as Hout.
    rewrite (IH (l1 ++ l2)%list); [rewrite sumZ_app; lia | assumption | assumption | |].
    + intros x Hx.
      assert (In x (l1 ++ a :: l2)) as Hx' by (apply Hincl; now right).
      apply in_app_or in Hx'. apply in_or_app.
      destruct Hx' as [Hx'|[Hx'|Hx']]; [now left | | now right].
      subst. contradiction.
    + intros x Hx Hnx. apply Hzero.
      * apply in_app_or in Hx. apply in_or_app.
        destruct Hx; [now left | right; now right].
      * intros [E|F]; [|contradiction]. subst. contradiction.
Qed.

(** ** C1: guess analysis *)


Lemma analyze_round_pair target attempt i x y acc :
  index target i = Some x -> index attempt i = Some y ->
  analyze_round target attempt i acc = round_pair acc (x, y).
Proof.
  intros Hx Hy. unfold analyze_round, round_pair.
  destruct acc as [[e tf] gf]. rewrite Hx, Hy. reflexivity.
Qed.

Lemma round_pairs_fold ps : forall e tf gf,
  fold_left round_pair ps (e, tf, gf) =
  (e + Z.of_nat (List.length (filter is_exact ps)),
   tally_from tf (map fst (filter (fun p => negb (is_exact p)) ps)),
   tally_from gf (map snd (filter (fun p => negb (is_exact p)) ps))).
Proof.
  induction ps as [|[x y] ps IH]; intros e tf gf.
  - simpl. f_equal. f_equal. lia.
  - cbn [fold_left round_pair fst snd filter].
    change (is_exact (x, y)) with (Ascii.eqb x y).
    rewrite (Ascii.eqb_sym y x).
    destruct (Ascii.eqb x y) eqn:E; cbn [negb map fst snd List.length];
      rewrite IH.
    + f_equal. f_equal. lia.
    + reflexivity.
Qed.

Lemma partial_rounds_sum (F : option ascii -> Z) tf gf : forall acc,
  (forall k v, In (k, v) gf -> partial_round tf 0 (k, v) = F k) ->
  fold_left (partial_round tf) gf acc = acc + sumZ F (map fst gf).
Proof.
  induction gf as [|[k v] gf IH]; intros acc H; simpl.
  - lia.
  - rewrite IH by (intros; apply H; now right).
    specialize (H k v (or_introl eq_refl)).
    unfold partial_round in *. destruct (map_has tf k); lia.
Qed.


Lemma partial_round_credit ls lg k v :
  In (k, v) (tally_from [] lg) ->
  partial_round (tally_from [] ls) 0 (k, v) = key_credit ls lg k.
Proof.
  intro HIn.
  assert (NoDup (map fst (tally_from [] lg))) as ND
    by (apply tally_from_NoDup; constructor).
  pose proof (map_get_In _ _ _ ND HIn) as Hget.
  assert (In k (map fst (tally_from [] lg))) as Hk
    by (change k with (fst (k, v)); now apply in_map).
  apply tally_from_keys in Hk. destruct Hk as [[]|[c [-> Hc]]].
  rewrite tally_from_get in Hget. simpl in Hget.
  pose proof (occurrences_nonneg c ls) as Hs.
  destruct (occurrences c lg =? 0) eqn:E0; [discriminate|].
  inversion Hget; subst v. clear Hget.
  unfold partial_round, map_has, key_credit, get_or_0.
  rewrite tally_from_get. simpl.
  destruct (occurrences c ls =? 0) eqn:E1.
  - apply Z.eqb_eq in E1. apply Z.eqb_neq in E0.
    pose proof (occurrences_nonneg c lg). lia.
  - lia.
Qed.

Lemma map_get_Some_keys m k : map_get m k <> None -> In k (map fst m).
Proof.
  induction m as [|[k0 v0] m IH]; simpl; intro H.
  - congruence.
  - destruct (undef_eqb k0 k) eqn:E.
    + apply undef_eqb_eq in E. now left.
    + right. now apply IH.
Qed.

Lemma decimal_digits_NoDup : NoDup (map Some decimal_digits).
Proof.
  unfold decimal_digits. simpl.
  repeat (constructor; [simpl; intuition discriminate|]). constructor.
Qed.

Lemma is_digit_decimal c : is_digit c = true -> In c decimal_digits.
Proof.
  destruct c as [[] [] [] [] [] [] [] []]; vm_compute; intro H;
    try discriminate; tauto.
Qed.

Lemma tally_partial ls lg :
  (forall c, In c lg -> In c decimal_digits) ->
  fold_left (partial_round (tally_from [] ls)) (tally_from [] lg) 0 =
  sumZ (fun d => Z.min (occurrences d ls) (occurrences d lg)) decimal_digits.
Proof.
  intro Hdig.
  rewrite (partial_rounds_sum (key_credit ls lg))
    by (intros; now apply partial_round_credit).
  rewrite (sumZ_support (key_credit ls lg) _ (map Some decimal_digits)).
  - reflexivity.
  - apply tally_from_NoDup. constructor.
  - apply decimal_digits_NoDup.
  - intros k Hk. apply tally_from_keys in Hk.
    destruct Hk as [[]|[c [-> Hc]]]. apply in_map. now apply Hdig.
  - intros k Hk Hnk. apply in_map_iff in Hk. destruct Hk as [c [<- Hc]].
    simpl. pose proof (occurrences_nonneg c ls) as Hs.
    pose proof (occurrences_nonneg c lg) as Hg.
    destruct (Z.eq_dec (occurrences c lg) 0) as [E|E]; [lia|].
    exfalso. apply Hnk.
    assert (map_get (tally_from [] lg) (Some c) <> None) as Hget.
    { rewrite tally_from_get. apply Z.eqb_neq in E. rewrite E. discriminate. }
    now apply map_get_Some_keys.
Qed.

Lemma test_4digits_shape s :
  test_4digits s = true ->
  exists a b c d,
    s = String a (String b (String c (String d EmptyString))) /\
    is_digit a = true /\ is_digit b = true /\
    is_digit c = true /\ is_digit d = true.
Proof.
  destruct s as [|a [|b [|c [|d [|? ?]]]]]; simpl; try discriminate.
  intro H. apply andb_prop in H. destruct H as [H Hd].
  apply andb_prop in H. destruct H as [H Hc].
  apply andb_prop in H. destruct H as [Ha Hb].
  exists a, b, c, d. auto.
Qed.

Lemma leftover_guess_digits S G :
  test_4digits G = true ->
  forall c, In c (leftover_guess S G) -> In c decimal_digits.
Proof.
  intros HG c Hc. unfold leftover_guess in Hc.
  apply in_map_iff in Hc. destruct Hc as [[x y] [<- Hp]].
  apply filter_In in Hp. destruct Hp as [Hp _].
  apply in_combine_r in Hp. simpl.
  apply test_4digits_shape in HG.
  destruct HG as (a & b & c' & d & -> & Ha & Hb & Hc & Hd).
  simpl in Hp. destruct Hp as [<-|[<-|[<-|[<-|[]]]]]; now apply is_digit_decimal.
Qed.

Lemma analyzeGuess_fold g guess :
  test_4digits (secret g) = true -> test_4digits guess = true ->
  fold_left
    (fun acc i => analyze_round (split_chars (secret g)) (split_chars guess) i acc)
    [0; 1; 2; 3]%nat (0, [], []) =
  fold_left round_pair (positions (secret g) guess) (0, [], []).
Proof.
  intros HS HG. unfold positions.
  apply test_4digits_shape in HS. destruct HS as (a & b & c & d & -> & _).
  apply test_4digits_shape in HG. destruct HG as (a' & b' & c' & d' & -> & _).
  cbn [split_chars list_ascii_of_string combine fold_left].
  rewrite (analyze_round_pair _ _ 0 a a') by reflexivity.
  rewrite (analyze_round_pair _ _ 1 b b') by reflexivity.
  rewrite (analyze_round_pair _ _ 2 c c') by reflexivity.
  rewrite (analyze_round_pair _ _ 3 d d') by reflexivity.
  reflexivity.
Qed.

Lemma analyzeGuess_spec g guess :
  test_4digits (secret g) = true -> test_4digits guess = true ->
  analyzeGuess guess g =
  {| exact := spec_exact (secret g) guess;
     partial := spec_partial (secret g) guess |}.
Proof.
  intros HS HG. unfold analyzeGuess.
  rewrite analyzeGuess_fold by assumption.
  rewrite round_pairs_fold.
  fold (leftover_secret (secret g) guess) (leftover_guess (secret g) guess).
  rewrite tally_partial by (now apply leftover_guess_digits).
  reflexivity.
Qed.

(** C1 (amended). For every 4-digit secret and every 4-digit guess,
    [analyzeGuess] returns [exact] = the number of positions where secret and
    guess agree and [partial] = the sum, over the ten digit values, of the
    smaller of the digit's counts among the non-exact positions of the secret
    and of the guess. Secret 1122 with guess 1234 gives exact 1 and
    partial 1; secret 1123 with guess 1111 gives exact 2 (positions 0 and 1)
    and partial 0: the two surplus 1s of the guess earn no credit. *)
Theorem analyzeGuess_exact_partial :
  (forall g guess,
     test_4digits (secret g) = true -> test_4digits guess = true ->
     exact (analyzeGuess guess g) = spec_exact (secret g) guess /\
     partial (analyzeGuess guess g) = spec_partial (secret g) guess) /\
  analyzeGuess "1234" (set_secret "1122" initial) = {| exact := 1; partial := 1 |} /\
  analyzeGuess "1111" (set_secret "1123" initial) = {| exact := 2; partial := 0 |}.
Proof.
  split; [|split; reflexivity].
  intros g guess HS HG. rewrite analyzeGuess_spec by assumption. split; reflexivity.
Qed.

Lemma analyzeGuess_exact_partial_witness :
  exact (analyzeGuess "1243" (set_secret "1322" initial)) = 1 /\
  partial (analyzeGuess "1243" (set_secret "1322" initial)) = 2.
Proof.
  destruct (proj1 analyzeGuess_exact_partial (set_secret "1322" initial) "1243"
              eq_refl eq_refl) as [He Hp].
  rewrite He, Hp. split; reflexivity.
Defined.

(** C1 as stated fails on its second example: for secret 1123 and guess
    1111 the code does not return exact 1, partial 1. *)
Lemma analyzeGuess_1123_1111_counterexample :
  analyzeGuess "1111" (set_secret "1123" initial) <> {| exact := 1; partial := 1 |}.
Proof. vm_compute. discriminate. Qed.

(** ** The invariant holds in every reachable state *)

Arguments padStart : simpl never.
Arguments toString : simpl never.
Arguments analyzeGuess : simpl never.
Arguments calculateScore : simpl never.
Arguments getState : simpl never.
Arguments test_4digits : simpl never.

(** Projections of a computation through the monad operations. *)

Lemma state_of_bind {A B} (m : M A) (f : A -> M B) g :
  state_of (bind m f g) = state_of (f (value_of (m g)) (state_of (m g))).
Proof.
  unfold bind, state_of, value_of. destruct (m g) as [[a g1] l1]. cbn.
  destruct (f a g1) as [[b g2] l2]. reflexivity.
Qed.

Lemma value_of_bind {A B} (m : M A) (f : A -> M B) g :
  value_of (bind m f g) = value_of (f (value_of (m g)) (state_of (m g))).
Proof.
  unfold bind, state_of, value_of. destruct (m g) as [[a g1] l1]. cbn.
  destruct (f a g1) as [[b g2] l2]. reflexivity.
Qed.

Lemma log_of_bind {A B} (m : M A) (f : A -> M B) g :
  log_of (bind m f g) =
  (log_of (m g) ++ log_of (f (value_of (m g)) (state_of (m g))))%list.
Proof.
  unfold bind, state_of, value_of, log_of. destruct (m g) as [[a g1] l1]. cbn.
  destruct (f a g1) as [[b g2] l2]. reflexivity.
Qed.

Lemma state_of_ret {A} (a : A) g : state_of (ret a g) = g.
Proof. reflexivity. Qed.

Lemma state_of_modify f g : state_of (modify f g) = f g.
Proof. reflexivity. Qed.

Lemma state_of_notify b e g : state_of (notify b e g) = g.
Proof. reflexivity. Qed.

Lemma state_of_notify_update g : state_of (notify_update g) = g.
Proof. reflexivity. Qed.

Lemma state_of_get g : state_of (get g) = g.
Proof. reflexivity. Qed.

Lemma value_of_get g : value_of (get g) = g.
Proof. reflexivity. Qed.

Create Rewrite HintDb monad.
#[local] Hint Rewrite @state_of_bind @state_of_ret state_of_modify
  state_of_notify state_of_notify_update state_of_get value_of_get : monad.

Ltac split_all := repeat match goal with |- _ /\ _ => split end.

Ltac run_monad :=
  unfold state_of, value_of, log_of, notify_update, clear_timer, startTimer,
    setInterval, clearInterval, bind, modify, get, notify, when, ret in *;
  cbn in *.

Lemma secret_of_digits_all :
  forallb (fun a => forallb (fun b => forallb (fun c => forallb (fun d =>
    String.eqb (secret_of_digits a b c d) (four_digit_string a b c d))
    digit_values) digit_values) digit_values) digit_values = true.
Proof. vm_compute. reflexivity. Qed.

Lemma digit_values_In d : 0 <= d <= 9 -> In d digit_values.
Proof.
  intro H. unfold digit_values. cbn [In].
  assert (d = 0 \/ d = 1 \/ d = 2 \/ d = 3 \/ d = 4 \/ d = 5 \/ d = 6 \/
          d = 7 \/ d = 8 \/ d = 9) by lia.
  intuition auto.
Qed.

Lemma digit_char_value d :
  In d digit_values ->
  is_digit (digit_char d) = true /\
  Z.of_nat (nat_of_ascii (digit_char d)) - 48 = d.
Proof.
  unfold digit_values. cbn [In].
  intros [<-|[<-|[<-|[<-|[<-|[<-|[<-|[<-|[<-|[<-|[]]]]]]]]]]];
    split; reflexivity.
Qed.

(** The digits of a number below 10000, and the string [reset] makes. *)
Lemma secret_digits n :
  0 <= n < 10000 ->
  exists a b c d,
    In a digit_values /\ In b digit_values /\
    In c digit_values /\ In d digit_values /\
    n = 1000 * a + 100 * b + 10 * c + d /\
    padStart 4 "0" (toString n) = four_digit_string a b c d.
Proof.
  intro H.
  exists (n / 1000), (n / 100 mod 10), (n / 10 mod 10), (n mod 10).
  assert (Ha : 0 <= n / 1000 <= 9)
    by (split; [apply Z.div_pos; lia | apply Z.lt_succ_r, Z.div_lt_upper_bound; lia]).
  pose proof (Z.mod_pos_bound (n / 100) 10 ltac:(lia)) as Hb.
  pose proof (Z.mod_pos_bound (n / 10) 10 ltac:(lia)) as Hc.
  pose proof (Z.mod_pos_bound n 10 ltac:(lia)) as Hd.
  assert (Hn : n = 1000 * (n / 1000) + 100 * (n / 100 mod 10)
                   + 10 * (n / 10 mod 10) + n mod 10).
  { pose proof (Z.div_mod n 10 ltac:(lia)).
    pose proof (Z.div_mod (n / 10) 10 ltac:(lia)).
    pose proof (Z.div_mod (n / 100) 10 ltac:(lia)).
    rewrite (Z.div_div n 10 10) in * by lia.
    rewrite (Z.div_div n 100 10) in * by lia.
    change (10 * 10) with 100 in *. change (100 * 10) with 1000 in *. lia. }
  assert (Ia : In (n / 1000) digit_values) by (apply digit_values_In; lia).
  assert (Ib : In (n / 100 mod 10) digit_values) by (apply digit_values_In; lia).
  assert (Ic : In (n / 10 mod 10) digit_values) by (apply digit_values_In; lia).
  assert (Id : In (n mod 10) digit_values) by (apply digit_values_In; lia).
  split_all; auto.
  pose proof secret_of_digits_all as A.
  rewrite forallb_forall in A. specialize (A _ Ia).
  rewrite forallb_forall in A. specialize (A _ Ib).
  rewrite forallb_forall in A. specialize (A _ Ic).
  rewrite forallb_forall in A. specialize (A _ Id).
  apply String.eqb_eq in A. unfold secret_of_digits in A.
  rewrite <- Hn in A. exact A.
Qed.

Lemma secret_4digits n :
  0 <= n < 10000 -> test_4digits (padStart 4 "0" (toString n)) = true.
Proof.
  intro H.
  destruct (secret_digits n H) as (a & b & c & d & Ia & Ib & Ic & Id & _ & ->).
  unfold four_digit_string, test_4digits.
  rewrite (proj1 (digit_char_value a Ia)), (proj1 (digit_char_value b Ib)),
          (proj1 (digit_char_value c Ic)), (proj1 (digit_char_value d Id)).
  reflexivity.
Qed.

Lemma secret_value n :
  0 <= n < 10000 -> digits_value 0 (padStart 4 "0" (toString n)) = n.
Proof.
  intro H.
  destruct (secret_digits n H) as (a & b & c & d & Ia & Ib & Ic & Id & Hn & ->).
  unfold four_digit_string. cbn [digits_value].
  pose proof (proj2 (digit_char_value a Ia)).
  pose proof (proj2 (digit_char_value b Ib)).
  pose proof (proj2 (digit_char_value c Ic)).
  pose proof (proj2 (digit_char_value d Id)).
  lia.
Qed.

Lemma host_ok_random h :
  host_ok h = true -> 0 <= random10000 h < 10000 /\ (random4 h < 4)%nat.
Proof.
  unfold host_ok. intro H.
  apply andb_prop in H. destruct H as [H H4].
  apply andb_prop in H. destruct H as [H0 H1].
  apply Z.leb_le in H0. apply Z.ltb_lt in H1. apply Nat.ltb_lt in H4. lia.
Qed.

Lemma lookup_setting_bounds level a hints :
  lookup_setting DIFFICULTY_SETTINGS level = Some (a, hints) ->
  0 < a /\ 0 <= hints.
Proof.
  unfold DIFFICULTY_SETTINGS. cbn [lookup_setting].
  repeat (destruct (String.eqb _ level); [intro H; inversion H; lia|]).
  discriminate.
Qed.

Lemma settings_get_bounds level ma mh :
  settings_get level = Some (ma, mh) ->
  (forall a, ma = Some a -> 0 < a) /\ (forall hi, mh = Some hi -> 0 <= hi).
Proof.
  unfold settings_get.
  destruct (lookup_setting DIFFICULTY_SETTINGS level) as [[a hi]|] eqn:E.
  - apply lookup_setting_bounds in E. intros [= <- <-].
    split; intros ? [= <-]; lia.
  - destruct (inherited_name level); [|discriminate].
    intros [= <- <-]. split; intros; discriminate.
Qed.

Lemma js_ge_false n a : js_ge n (Some a) = false <-> n < a.
Proof. cbn [js_ge]. rewrite Z.geb_leb. apply Z.leb_gt. Qed.

Lemma js_ge_true n a : js_ge n (Some a) = true <-> a <= n.
Proof. cbn [js_ge]. rewrite Z.geb_leb. apply Z.leb_le. Qed.

(** Budgets that are known: instantiate what is assumed of them. *)
Ltac use_budgets :=
  repeat match goal with
  | H : forall a, Some ?x = Some a -> _ |- _ => specialize (H x eq_refl)
  | H : forall a, None = Some a -> _ |- _ => clear H
  end.

Ltac solve_inv :=
  cbn in *; rewrite ?Pos.eqb_refl in *; cbn in *;
  split_all; auto; try lia; try congruence; try (intros; lia);
  try (intros; congruence);
  try (intros ? [= <-]; split_all; lia);
  try (intros; rewrite ?Z.geb_leb; apply Z.leb_gt; lia).

Lemma reset_invariant h g :
  host_ok h = true ->
  (forall a, maxAttempts g = Some a -> 0 < a) ->
  (forall hi, maxHints g = Some hi -> 0 <= hi) ->
  timer_consistent g ->
  (timerInterval g <> None -> timerMode g = true) ->
  invariant (state_of (reset h g)).
Proof.
  intros Hh Hma Hmh Htc Htm.
  apply host_ok_random in Hh. destruct Hh as [Hr _].
  pose proof (secret_4digits _ Hr) as Hs.
  unfold invariant, timer_consistent, reset, resetTimer in *.
  destruct g as [sec att maxA go gs hu mh diff tm td ti tl st ou ot oe iv nh].
  run_monad.
  destruct maxA as [a|], mh as [hi|]; use_budgets;
    (destruct tm; run_monad;
     [ destruct ti as [t|]; run_monad; subst; solve_inv
     | destruct ti as [t|];
       [ specialize (Htm ltac:(discriminate)); discriminate
       | solve_inv ] ]).
Qed.

Arguments Z.of_nat : simpl never.

Lemma descending_succ n : descending (S n) = Z.of_nat (S n) :: descending n.
Proof. reflexivity. Qed.

Lemma makeGuess_invariant guess h g :
  invariant g -> invariant (state_of (makeGuess guess h g)).
Proof.
  unfold invariant, timer_consistent, makeGuess.
  intros (Hat & Hhu & Hma & Hhi & Hgo & Hlen & Hnum & Htc & Htm & Hsec).
  destruct g as [sec att maxA go gs hu mh diff tm td ti tl st ou ot oe iv nh].
  run_monad.
  destruct go; [solve_inv|].
  specialize (Hgo eq_refl). rewrite Hgo.
  destruct (test_4digits guess); [|solve_inv].
  cbn.
  assert (Hlen' : att + 1 = Z.of_nat (S (List.length gs))) by lia.
  assert (Hnum' : att + 1 :: map attempt gs = descending (S (List.length gs)))
    by (rewrite descending_succ; congruence).
  destruct (exact (analyzeGuess guess _) =? 4).
  - destruct maxA as [a|]; use_budgets;
      [apply js_ge_false in Hgo|];
      destruct ti as [t|]; subst iv; solve_inv.
  - destruct maxA as [a|]; use_budgets.
    + apply js_ge_false in Hgo. cbn [js_ge]. rewrite Z.geb_leb.
      destruct (Z.leb_spec a (att + 1));
        destruct ti as [t|]; subst iv; solve_inv.
    + destruct ti as [t|]; subst iv; solve_inv.
Qed.

Lemma useHint_invariant h g :
  invariant g -> invariant (state_of (useHint h g)).
Proof.
  unfold invariant, timer_consistent, useHint.
  intros (Hat & Hhu & Hma & Hhi & Hgo & Hlen & Hnum & Htc & Htm & Hsec).
  destruct g as [sec att maxA go gs hu mh diff tm td ti tl st ou ot oe iv nh].
  run_monad.
  destruct go; [solve_inv|].
  destruct mh as [hi|]; use_budgets.
  - cbn [js_ge]. rewrite Z.geb_leb.
    destruct (Z.leb_spec hi hu); solve_inv.
  - solve_inv.
Qed.

Lemma timer_callback_invariant g :
  invariant g -> invariant (state_of (timer_callback g)).
Proof.
  unfold invariant, timer_consistent, timer_callback.
  intros (Hat & Hhu & Hma & Hhi & Hgo & Hlen & Hnum & Htc & Htm & Hsec).
  destruct g as [sec att maxA go gs hu mh diff tm td ti tl st ou ot oe iv nh].
  run_monad.
  destruct (tl - 1 <=? 0).
  - destruct ti as [t|]; subst iv; solve_inv.
  - solve_inv.
Qed.

Lemma invariant_budgets g :
  invariant g ->
  (forall a, maxAttempts g = Some a -> 0 < a) /\
  (forall hi, maxHints g = Some hi -> 0 <= hi).
Proof.
  intros (Hat & Hhu & Hma & Hhi & _). split.
  - intros a E. now destruct (Hma a E).
  - intros hi E. specialize (Hhi hi E). lia.
Qed.

Lemma init_invariant cbs h g :
  host_ok h = true -> invariant g -> invariant (state_of (init cbs h g)).
Proof.
  intros Hh Hinv. destruct (invariant_budgets g Hinv) as [Ba Bh].
  destruct Hinv as (_ & _ & _ & _ & _ & _ & _ & Htc & Htm & _).
  unfold init. autorewrite with monad.
  apply reset_invariant; unfold timer_consistent in *; cbn;
    [assumption | exact Ba | exact Bh | exact Htc | intro H; now apply Htm].
Qed.

Lemma reset_command_invariant h g :
  host_ok h = true -> invariant g -> invariant (state_of (reset h g)).
Proof.
  intros Hh Hinv. destruct (invariant_budgets g Hinv) as [Ba Bh].
  destruct Hinv as (_ & _ & _ & _ & _ & _ & _ & Htc & Htm & _).
  apply reset_invariant; [assumption | exact Ba | exact Bh | exact Htc |].
  intro H. now apply Htm.
Qed.

Lemma setDifficulty_invariant level h g :
  host_ok h = true -> invariant g ->
  invariant (state_of (setDifficulty level h g)).
Proof.
  intros Hh Hinv. unfold setDifficulty.
  destruct (settings_get level) as [[ma mh]|] eqn:E.
  - apply settings_get_bounds in E. destruct E as [Ha Hhints].
    destruct Hinv as (_ & _ & _ & _ & _ & _ & _ & Htc & Htm & _).
    autorewrite with monad.
    apply reset_invariant; unfold timer_consistent in *; cbn;
      [assumption | exact Ha | exact Hhints | exact Htc
      | intro H; now apply Htm].
  - exact Hinv.
Qed.

Lemma setTimerMode_invariant enabled seconds h g :
  host_ok h = true -> invariant g ->
  invariant (state_of (setTimerMode enabled seconds h g)).
Proof.
  intros Hh Hinv. destruct (invariant_budgets g Hinv) as [Ba Bh].
  destruct Hinv as (_ & _ & _ & _ & _ & _ & _ & Htc & Htm & _).
  unfold setTimerMode. autorewrite with monad.
  set (g2 := state_of (_ (set_timerDuration _ (set_timerMode enabled g)))).
  assert (H2 : maxAttempts g2 = maxAttempts g /\ maxHints g2 = maxHints g /\
               timer_consistent g2 /\
               (timerInterval g2 <> None -> timerMode g2 = true)).
  { subst g2. unfold timer_consistent, resetTimer in *.
    destruct g as [sec att maxA go gs hu mh diff tm td ti tl st ou ot oe iv nh].
    destruct enabled; run_monad;
      destruct ti as [t|]; subst iv; solve_inv. }
  destruct H2 as (A & B & C & D).
  apply reset_invariant; [assumption | now rewrite A | now rewrite B | exact C | exact D].
Qed.

Lemma exec_invariant c g :
  invariant g -> permitted c g = true -> invariant (state_of (exec c g)).
Proof.
  intros Hinv Hp.
  destruct c as [cbs h|h|level h|enabled seconds h|guess h|h|handle];
    cbn [exec permitted] in *; rewrite state_of_bind, state_of_ret.
  - apply init_invariant; assumption.
  - apply reset_command_invariant; assumption.
  - apply setDifficulty_invariant; assumption.
  - apply setTimerMode_invariant; assumption.
  - apply makeGuess_invariant; assumption.
  - apply useHint_invariant; assumption.
  - apply timer_callback_invariant; assumption.
Qed.

Lemma initial_invariant : invariant initial.
Proof.
  unfold invariant, timer_consistent, initial. cbn.
  split_all; auto; try lia; try congruence;
    intros ? [= <-]; split_all; lia.
Qed.

Lemma reachable_invariant g : reachable g -> invariant g.
Proof.
  induction 1 as [|c g Hr IH Hp]; [apply initial_invariant|].
  now apply exec_invariant.
Qed.

(** While a game is on, the attempts guard of [makeGuess] is not taken. *)
Lemma reachable_guard_false g :
  reachable g -> gameOver g = false ->
  js_ge (attempts g) (maxAttempts g) = false.
Proof.
  intros Hr Hgo. apply reachable_invariant in Hr.
  destruct Hr as (_ & _ & _ & _ & H & _). now apply H.
Qed.

(** ** C2: scoring *)

(** C2. [calculateScore(attemptsUsed, exactMatches)] is
    max(100, 1000 - 50*attemptsUsed - 100*hintsUsed + timeBonus), with
    timeBonus = 10*timeLeft when timer mode is on and timeLeft > 0 and 0
    otherwise; it does not depend on [exactMatches] and is never below 100. *)
Theorem calculateScore_formula :
  forall (g : Game) (a e1 e2 : Z),
    calculateScore a e1 g =
      Z.max 100
        (1000 - 50 * a - 100 * hintsUsed g
         + (if timerMode g && (0 <? timeLeft g) then 10 * timeLeft g else 0)) /\
    calculateScore a e1 g = calculateScore a e2 g /\
    100 <= calculateScore a e1 g.
Proof.
  intros g a e1 e2. unfold calculateScore. rewrite Z.gtb_ltb.
  destruct (timerMode g && (0 <? timeLeft g)); lia.
Qed.

(** ** C5: the snapshot hides the secret during a game *)

Lemma mask_not_4digits : test_4digits "????" = false.
Proof. reflexivity. Qed.

(** C5. In every state, the [secret] field of [getState()] is the mask
    "????" when [gameOver] is false and the true secret when [gameOver] is
    true; in a reachable state it equals the true secret exactly when
    [gameOver] is true; and two states that are not over and differ only in
    their secret have the same snapshot, hence the same [secret] field. *)
Theorem getState_redacts_secret :
  forall g : Game,
    (gameOver g = false -> snap_secret (getState g) = "????") /\
    (gameOver g = true -> snap_secret (getState g) = secret g) /\
    (reachable g -> (snap_secret (getState g) = secret g <-> gameOver g = true)) /\
    (forall s', gameOver g = false ->
       getState (with_secret s' g) = getState g /\
       snap_secret (getState (with_secret s' g)) = snap_secret (getState g)).
Proof.
  intro g. split_all.
  - unfold getState. cbn [snap_secret]. intros ->. reflexivity.
  - unfold getState. cbn [snap_secret]. intros ->. reflexivity.
  - unfold getState. cbn [snap_secret].
    intro Hr. apply reachable_invariant in Hr.
    destruct Hr as (_ & _ & _ & _ & _ & _ & _ & _ & _ & Hsec).
    destruct (gameOver g); split; auto; intro H; try discriminate.
    rewrite <- H in Hsec. destruct Hsec as [F|F]; discriminate.
  - intros s' Hgo. assert (E : getState (with_secret s' g) = getState g).
    { unfold getState, with_secret, calculateScore. destruct g; cbn in *.
      subst. reflexivity. }
    split; [exact E | now rewrite E].
Qed.

Lemma getState_redacts_secret_witness :
  snap_secret (getState initial) = "????" /\
  snap_secret (getState (set_gameOver true (with_secret "0042" initial))) = "0042" /\
  (snap_secret (getState initial) = secret initial <-> gameOver initial = true) /\
  getState (with_secret "1234" initial) = getState initial.
Proof.
  split_all.
  - exact (proj1 (getState_redacts_secret initial) eq_refl).
  - exact (proj1 (proj2 (getState_redacts_secret
             (set_gameOver true (with_secret "0042" initial)))) eq_refl).
  - exact (proj1 (proj2 (proj2 (getState_redacts_secret initial)))
             reachable_initial).
  - exact (proj1 (proj2 (proj2 (proj2 (getState_redacts_secret initial)))
                    "1234" eq_refl)).
Defined.

(** ** The branches of [makeGuess] *)

Lemma makeGuess_game_over guess h g :
  gameOver g = true ->
  makeGuess guess h g = (Failure "Game over. Start new game.", g, []).
Proof. intro H. unfold makeGuess, bind, get. rewrite H. reflexivity. Qed.

Lemma makeGuess_invalid_format guess h g :
  gameOver g = false -> js_ge (attempts g) (maxAttempts g) = false ->
  test_4digits guess = false ->
  makeGuess guess h g = (Failure "Enter exactly 4 digits!", g, []).
Proof.
  intros Hgo Hat Hfmt. unfold makeGuess, bind, get. rewrite Hgo, Hat, Hfmt.
  reflexivity.
Qed.

(** ** C4: validation order of [makeGuess] *)

(** C4. In every reachable state: when [gameOver] is true, [makeGuess]
    fails with "Game over. Start new game." and changes nothing; otherwise,
    when the input is not exactly four ASCII decimal digits, it fails with
    "Enter exactly 4 digits!", changes nothing (so [attempts] is unchanged
    and no attempt is consumed) and invokes no callback. *)
Theorem makeGuess_validation_order :
  forall (g : Game) (guess : string) (h : host),
    reachable g ->
    (gameOver g = true ->
       makeGuess guess h g = (Failure "Game over. Start new game.", g, [])) /\
    (gameOver g = false -> test_4digits guess = false ->
       makeGuess guess h g = (Failure "Enter exactly 4 digits!", g, []) /\
       attempts (state_of (makeGuess guess h g)) = attempts g).
Proof.
  intros g guess h Hr. split.
  - apply makeGuess_game_over.
  - intros Hgo Hfmt.
    rewrite makeGuess_invalid_format
      by (auto; now apply reachable_guard_false).
    split; reflexivity.
Qed.

(** ** Runs *)

Lemma run_cons c cs g :
  fst (run (c :: cs) g) = fst (run cs (state_of (exec c g))).
Proof. cbn [run]. destruct (run cs (state_of (exec c g))). reflexivity. Qed.

Lemma run_cons_log c cs g :
  snd (run (c :: cs) g) =
  (log_of (exec c g) ++ snd (run cs (state_of (exec c g))))%list.
Proof. cbn [run]. destruct (run cs (state_of (exec c g))). reflexivity. Qed.

Lemma run_app cs1 : forall cs2 g,
  fst (run (cs1 ++ cs2) g) = fst (run cs2 (fst (run cs1 g))).
Proof.
  induction cs1 as [|c cs1 IH]; intros cs2 g; [reflexivity|].
  rewrite <- app_comm_cons, !run_cons. apply IH.
Qed.

Lemma all_permitted_app cs1 : forall cs2 g,
  all_permitted (cs1 ++ cs2) g =
  all_permitted cs1 g && all_permitted cs2 (fst (run cs1 g)).
Proof.
  induction cs1 as [|c cs1 IH]; intros cs2 g; [reflexivity|].
  rewrite <- app_comm_cons. cbn [all_permitted]. rewrite IH, run_cons.
  now rewrite andb_assoc.
Qed.

Lemma run_reachable cs : forall g,
  reachable g -> all_permitted cs g = true -> reachable (fst (run cs g)).
Proof.
  induction cs as [|c cs IH]; intros g Hr Hp; [exact Hr|].
  cbn [all_permitted] in Hp. apply andb_prop in Hp. destruct Hp as [Hc Hp].
  rewrite run_cons. apply IH; [|exact Hp]. now apply reachable_exec.
Qed.

Lemma reachable_run g :
  reachable g ->
  exists cs, all_permitted cs initial = true /\ fst (run cs initial) = g.
Proof.
  induction 1 as [|c g Hr [cs [Hp Hg]] Hc].
  - exists []. split; reflexivity.
  - exists (cs ++ [c])%list. split.
    + rewrite all_permitted_app, Hp, Hg. cbn. now rewrite Hc.
    + rewrite run_app, Hg. apply run_cons.
Qed.

Lemma state_of_exec_makeGuess guess h g :
  state_of (exec (MakeGuess guess h) g) = state_of (makeGuess guess h g).
Proof. cbn [exec]. now rewrite state_of_bind, state_of_ret. Qed.

(** C4 at a state that is not over and at a state won at the first guess. *)
Lemma makeGuess_validation_order_witness :
  makeGuess "12a4" (draws 7 0) initial
    = (Failure "Enter exactly 4 digits!", initial, []) /\
  (let g := fst (run [Init all_callbacks (draws 42 0);
                      MakeGuess "0042" (draws 0 0)] initial) in
   makeGuess "12345" (draws 7 0) g = (Failure "Game over. Start new game.", g, [])).
Proof.
  split.
  - exact (proj1 (proj2 (makeGuess_validation_order initial "12a4" (draws 7 0)
                           reachable_initial) eq_refl eq_refl)).
  - intro g.
    refine (proj1 (makeGuess_validation_order g "12345" (draws 7 0) _) _).
    + apply run_reachable; [apply reachable_initial | vm_compute; reflexivity].
    + vm_compute. reflexivity.
Defined.

(** ** C7: the budgets *)

Lemma makeGuess_no_attempts_branch guess h g :
  (gameOver g = false -> js_ge (attempts g) (maxAttempts g) = false) ->
  value_of (makeGuess guess h g) <> Failure "Maximum attempts reached!" /\
  (forall data, ~ In (OnGameEnd "attempts" data) (log_of (makeGuess guess h g))).
Proof.
  intro Hlt. unfold makeGuess.
  destruct g as [sec att maxA go gs hu mh diff tm td ti tl st ou ot oe iv nh].
  run_monad.
  destruct go; [cbn; split; [discriminate | tauto]|].
  specialize (Hlt eq_refl). rewrite Hlt.
  destruct (test_4digits guess); [|cbn; split; [discriminate | tauto]].
  cbn.
  destruct (exact (analyzeGuess guess _) =? 4).
  - destruct ti, oe, ou; cbn;
      (split; [discriminate | intros data F; intuition discriminate]).
  - destruct (js_ge (att + 1) maxA);
      destruct ti, oe, ou; cbn;
      (split; [discriminate | intros data F; intuition discriminate]).
Qed.

(** Budgets that are numbers are respected, and the attempts-exhausted
    branch of [makeGuess] is never taken. *)
Lemma defined_budgets_respected g :
  reachable g ->
  (forall a, maxAttempts g = Some a ->
     attempts g <= a /\ (gameOver g = false -> attempts g < a)) /\
  (forall hi, maxHints g = Some hi -> hintsUsed g <= hi) /\
  (forall guess h,
     value_of (makeGuess guess h g) <> Failure "Maximum attempts reached!" /\
     forall data, ~ In (OnGameEnd "attempts" data) (log_of (makeGuess guess h g))).
Proof.
  intro Hr. apply reachable_invariant in Hr.
  destruct Hr as (_ & _ & Hma & Hhi & Hlt & _).
  split_all.
  - intros a E. destruct (Hma a E) as [_ Hle]. split; [exact Hle|].
    intro Hgo. specialize (Hlt Hgo). rewrite E in Hlt.
    now apply js_ge_false in Hlt.
  - exact Hhi.
  - intros guess h. now apply makeGuess_no_attempts_branch.
Qed.

(** C7 fails on the engine. [setDifficulty('constructor')] passes the guard
    [if (!DIFFICULTY_SETTINGS[level]) return], because the lookup finds the
    property the table inherits from [Object.prototype], and leaves
    [maxAttempts] and [maxHints] [undefined]. Sixteen losing guesses and
    four hints later the game is still on with [attempts = 16] and
    [hintsUsed = 4]: no number bounds them, and the snapshot reports
    [NaN] attempts remaining. *)
Theorem budgets_undefined_after_inherited_level :
  let cs := ([Init all_callbacks (draws 1234 0);
              SetDifficulty "constructor" (draws 1234 0)]
             ++ repeat (MakeGuess "0000" (draws 0 0)) 16
             ++ repeat (UseHint (draws 0 1)) 4)%list in
  let g := fst (run cs initial) in
  all_permitted cs initial = true /\
  reachable g /\
  difficulty g = "constructor" /\
  maxAttempts g = None /\ maxHints g = None /\
  attempts g = 16 /\ hintsUsed g = 4 /\ gameOver g = false /\
  snap_remainingAttempts (getState g) = None /\
  ~ (exists a, maxAttempts g = Some a /\ attempts g <= a) /\
  ~ (exists hi, maxHints g = Some hi /\ hintsUsed g <= hi).
Proof.
  intros cs g.
  assert (Hp : all_permitted cs initial = true) by (vm_compute; reflexivity).
  assert (Hma : maxAttempts g = None) by (vm_compute; reflexivity).
  assert (Hmh : maxHints g = None) by (vm_compute; reflexivity).
  split_all; try (vm_compute; reflexivity).
  - apply run_reachable; [apply reachable_initial | exact Hp].
  - intros (a & E & _). congruence.
  - intros (hi & E & _). congruence.
Qed.

(** ** C10: the history and the attempt counter move together *)

Lemma reset_clears h g :
  attempts (state_of (reset h g)) = 0 /\
  guesses (state_of (reset h g)) = [] /\
  hintsUsed (state_of (reset h g)) = 0 /\
  gameOver (state_of (reset h g)) = false.
Proof.
  unfold reset, resetTimer.
  destruct g as [sec att maxA go gs hu mh diff tm td ti tl st ou ot oe iv nh].
  run_monad. destruct tm; run_monad; [destruct ti; run_monad|]; auto.
Qed.

Lemma makeGuess_success guess h g :
  success (value_of (makeGuess guess h g)) = true ->
  attempts (state_of (makeGuess guess h g)) = attempts g + 1 /\
  guesses (state_of (makeGuess guess h g)) =
    {| attempt := attempts g + 1; sequence := guess;
       entry_exact := exact (analyzeGuess guess g);
       entry_partial := partial (analyzeGuess guess g);
       time := localeTime h |} :: guesses g.
Proof.
  unfold makeGuess.
  destruct g as [sec att maxA go gs hu mh diff tm td ti tl st ou ot oe iv nh].
  run_monad.
  destruct go; [discriminate|].
  destruct (js_ge att maxA); [discriminate|].
  destruct (test_4digits guess); [|discriminate].
  cbn. intros _.
  destruct (exact (analyzeGuess guess _) =? 4).
  - destruct ti; cbn; auto.
  - destruct (js_ge (att + 1) maxA); [destruct ti|]; cbn; auto.
Qed.

(** C10. In every reachable state the length of [guesses] equals
    [attempts] and the records carry the attempt numbers
    attempts, attempts-1, ..., 1 from newest to oldest; a successful
    [makeGuess] adds one to [attempts] and prepends exactly one record, whose
    attempt number is the new value of [attempts]; [reset], [setDifficulty]
    (with any level that passes its guard) and [setTimerMode] leave
    [attempts = 0] and [guesses = []]. *)
Theorem guesses_track_attempts :
  forall g : Game,
    reachable g ->
    Z.of_nat (List.length (guesses g)) = attempts g /\
    map attempt (guesses g) = descending (Z.to_nat (attempts g)) /\
    (forall guess h,
       success (value_of (makeGuess guess h g)) = true ->
       attempts (state_of (makeGuess guess h g)) = attempts g + 1 /\
       exists e,
         guesses (state_of (makeGuess guess h g)) = e :: guesses g /\
         attempt e = attempts (state_of (makeGuess guess h g))) /\
    (forall h,
       attempts (state_of (reset h g)) = 0 /\
       guesses (state_of (reset h g)) = []) /\
    (forall level h,
       settings_get level <> None ->
       attempts (state_of (setDifficulty level h g)) = 0 /\
       guesses (state_of (setDifficulty level h g)) = []) /\
    (forall enabled seconds h,
       attempts (state_of (setTimerMode enabled seconds h g)) = 0 /\
       guesses (state_of (setTimerMode enabled seconds h g)) = []).
Proof.
  intros g Hr. apply reachable_invariant in Hr.
  destruct Hr as (_ & _ & _ & _ & _ & Hlen & Hnum & _).
  split_all.
  - now rewrite Hlen.
  - now rewrite Hlen, Nat2Z.id.
  - intros guess h Hs. destruct (makeGuess_success guess h g Hs) as [Ha Hg].
    split; [exact Ha|]. eexists. split; [exact Hg|]. now rewrite Ha.
  - intro h. destruct (reset_clears h g) as (A & B & _). now split.
  - intros level h Hl. unfold setDifficulty.
    destruct (settings_get level) as [[ma mh]|]; [|congruence].
    autorewrite with monad.
    match goal with |- context [reset h ?x] =>
      destruct (reset_clears h x) as (A & B & _) end.
    now split.
  - intros enabled seconds h. unfold setTimerMode. autorewrite with monad.
    match goal with |- context [reset h ?x] =>
      destruct (reset_clears h x) as (A & B & _) end.
    now split.
Qed.

Lemma guesses_track_attempts_witness :
  let g := fst (run [Init all_callbacks (draws 42 0);
                     MakeGuess "1234" (draws 0 0);
                     MakeGuess "5678" (draws 0 0)] initial) in
  Z.of_nat (List.length (guesses g)) = attempts g /\
  map attempt (guesses g) = [2; 1] /\
  attempts (state_of (makeGuess "0000" (draws 0 0) g)) = 3 /\
  guesses (state_of (setDifficulty "hard" (draws 5 0) g)) = [].
Proof.
  intro g.
  assert (Hr : reachable g)
    by (apply run_reachable; [apply reachable_initial | vm_compute; reflexivity]).
  destruct (guesses_track_attempts g Hr) as (A & B & C & _ & E & _).
  split_all.
  - exact A.
  - rewrite B. reflexivity.
  - rewrite (proj1 (C "0000" (draws 0 0) eq_refl)). reflexivity.
  - apply (E "hard" (draws 5 0)). discriminate.
Defined.

(** ** C6: hints *)

Lemma useHint_game_over h g :
  gameOver g = true -> useHint h g = (Failure "Game is over!", g, []).
Proof. intro H. unfold useHint, bind, get. rewrite H. reflexivity. Qed.

Lemma useHint_exhausted h g :
  gameOver g = false -> js_ge (hintsUsed g) (maxHints g) = true ->
  useHint h g = (Failure "No hints remaining!", g, []).
Proof.
  intros Hgo Hh. unfold useHint, bind, get. rewrite Hgo, Hh. reflexivity.
Qed.

Lemma useHint_given h g :
  gameOver g = false -> js_ge (hintsUsed g) (maxHints g) = false ->
  value_of (useHint h g) =
    HintGiven (Z.of_nat (random4 h) + 1) (String.get (random4 h) (secret g))
      (js_minus (maxHints g) (hintsUsed g + 1)) /\
  state_of (useHint h g) = set_hintsUsed (hintsUsed g + 1) g /\
  log_of (useHint h g) =
    if onUpdate g then [OnUpdate (getState (set_hintsUsed (hintsUsed g + 1) g))]
    else [].
Proof.
  intros Hgo Hh. unfold useHint, bind, get. rewrite Hgo, Hh.
  destruct g as [sec att maxA go gs hu mh diff tm td ti tl st ou ot oe iv nh].
  run_monad. subst. split_all; try reflexivity.
  destruct ou; reflexivity.
Qed.

Lemma get_digit s p :
  test_4digits s = true -> (p < 4)%nat ->
  exists d, String.get p s = Some d /\ is_digit d = true.
Proof.
  intros Hs Hp. apply test_4digits_shape in Hs.
  destruct Hs as (a & b & c & d & -> & Ha & Hb & Hc & Hd).
  destruct p as [|[|[|[|p]]]]; [| | | |lia]; cbn; eauto.
Qed.

Lemma hints_all_given hs : forall g m,
  gameOver g = false -> maxHints g = Some m ->
  hintsUsed g + Z.of_nat (List.length hs) <= m ->
  forallb success (fst (hints hs g)) = true /\
  hintsUsed (snd (hints hs g)) = hintsUsed g + Z.of_nat (List.length hs) /\
  maxHints (snd (hints hs g)) = Some m /\
  gameOver (snd (hints hs g)) = false.
Proof.
  induction hs as [|h hs IH]; intros g m Hgo Hm Hle.
  - cbn. split_all; auto; lia.
  - cbn [hints List.length] in *.
    assert (Hlt : js_ge (hintsUsed g) (maxHints g) = false)
      by (rewrite Hm; apply js_ge_false; lia).
    destruct (useHint_given h g Hgo Hlt) as (Hv & Hst & _).
    assert (Hgo' : gameOver (state_of (useHint h g)) = false)
      by (rewrite Hst; exact Hgo).
    assert (Hhu : hintsUsed (state_of (useHint h g)) = hintsUsed g + 1)
      by (rewrite Hst; reflexivity).
    assert (Hmh : maxHints (state_of (useHint h g)) = Some m)
      by (rewrite Hst; exact Hm).
    destruct (IH (state_of (useHint h g)) m Hgo' Hmh ltac:(lia))
      as (A & B & C & D).
    destruct (hints hs (state_of (useHint h g))) as [rs g'].
    cbn [fst snd forallb] in *. rewrite Hv. cbn [success andb].
    split_all; auto; lia.
Qed.

(** C6. [useHint] fails (with "Game is over!") when [gameOver] is true;
    when the game is not over and [hintsUsed >= maxHints] it fails with
    "No hints remaining!" and changes nothing, [hintsUsed] staying at
    [maxHints]; otherwise it adds one to [hintsUsed] and returns a 1-based
    position in [1,4], the character of the secret at that position (a
    decimal digit once a secret has been drawn), and
    [remaining = maxHints - hintsUsed] for the new [hintsUsed]. After
    [maxHints] successful hints of a game the next call fails with
    "No hints remaining!". (The comparison and the difference are the
    JavaScript ones: with [maxHints] undefined the comparison is false and
    the difference is NaN.) *)
Theorem useHint_budget :
  forall (g : Game) (h : host),
    (gameOver g = true -> useHint h g = (Failure "Game is over!", g, [])) /\
    (gameOver g = false -> js_ge (hintsUsed g) (maxHints g) = true ->
       useHint h g = (Failure "No hints remaining!", g, [])) /\
    (reachable g -> gameOver g = false ->
     js_ge (hintsUsed g) (maxHints g) = true ->
       maxHints g = Some (hintsUsed (state_of (useHint h g)))) /\
    (host_ok h = true -> gameOver g = false ->
     js_ge (hintsUsed g) (maxHints g) = false ->
       hintsUsed (state_of (useHint h g)) = hintsUsed g + 1 /\
       exists position digit,
         value_of (useHint h g) =
           HintGiven position digit
             (js_minus (maxHints g) (hintsUsed (state_of (useHint h g)))) /\
         1 <= position <= 4 /\
         digit = String.get (Z.to_nat (position - 1)) (secret g) /\
         (test_4digits (secret g) = true ->
            exists d, digit = Some d /\ is_digit d = true)) /\
    (forall hs,
       gameOver g = false -> hintsUsed g = 0 ->
       maxHints g = Some (Z.of_nat (List.length hs)) ->
       forallb success (fst (hints hs g)) = true /\
       maxHints g = Some (hintsUsed (snd (hints hs g))) /\
       useHint h (snd (hints hs g)) =
         (Failure "No hints remaining!", snd (hints hs g), [])).
Proof.
  intros g h. split_all.
  - apply useHint_game_over.
  - intros Hgo Hh. now apply useHint_exhausted.
  - intros Hr Hgo Hh. apply reachable_invariant in Hr.
    destruct Hr as (_ & _ & _ & Hhi & _).
    rewrite useHint_exhausted by auto. cbn [state_of fst snd].
    destruct (maxHints g) as [hi|]; [|discriminate].
    specialize (Hhi hi eq_refl). apply js_ge_true in Hh. f_equal. lia.
  - intros Hok Hgo Hh. apply host_ok_random in Hok. destruct Hok as [_ Hp].
    destruct (useHint_given h g Hgo Hh) as (Hv & Hst & _).
    rewrite Hst, Hv. cbn [hintsUsed set_hintsUsed]. split; [reflexivity|].
    exists (Z.of_nat (random4 h) + 1), (String.get (random4 h) (secret g)).
    split_all; try reflexivity; try lia.
    + f_equal. lia.
    + intro Hs. now apply get_digit.
  - intros hs Hgo H0 Hlen.
    destruct (hints_all_given hs g _ Hgo Hlen ltac:(lia)) as (A & B & C & D).
    split_all; [exact A | rewrite Hlen; f_equal; lia |].
    apply useHint_exhausted; [exact D|].
    rewrite C. apply js_ge_true. lia.
Qed.

Lemma useHint_budget_witness :
  let g := fst (run [Init all_callbacks (draws 42 0)] initial) in
  let won := fst (run [MakeGuess "0042" (draws 0 0)] g) in
  let hs := [draws 0 3; draws 0 3; draws 0 1] in
  useHint (draws 0 2) won = (Failure "Game is over!", won, []) /\
  (exists position digit,
     value_of (useHint (draws 0 2) g) = HintGiven position digit (Some 2) /\
     1 <= position <= 4) /\
  hintsUsed (state_of (useHint (draws 0 2) (snd (hints hs g)))) = 3 /\
  useHint (draws 0 2) (snd (hints hs g))
    = (Failure "No hints remaining!", snd (hints hs g), []).
Proof.
  intros g won hs.
  assert (Hwon : gameOver won = true) by (vm_compute; reflexivity).
  assert (Hg : gameOver g = false) by (vm_compute; reflexivity).
  assert (Hu : hintsUsed g = 0) by (vm_compute; reflexivity).
  assert (Hm : maxHints g = Some 3) by (vm_compute; reflexivity).
  assert (Hlt : js_ge (hintsUsed g) (maxHints g) = false)
    by (vm_compute; reflexivity).
  assert (Hok : host_ok (draws 0 2) = true) by (vm_compute; reflexivity).
  assert (Hr : reachable (snd (hints hs g))).
  { assert (E : snd (hints hs g) =
      fst (run [Init all_callbacks (draws 42 0); UseHint (draws 0 3);
                UseHint (draws 0 3); UseHint (draws 0 1)] initial))
      by (vm_compute; reflexivity).
    rewrite E.
    apply run_reachable; [apply reachable_initial | vm_compute; reflexivity]. }
  assert (Hgs : gameOver (snd (hints hs g)) = false) by (vm_compute; reflexivity).
  assert (Hms : maxHints (snd (hints hs g)) = Some 3) by (vm_compute; reflexivity).
  assert (Hus : js_ge (hintsUsed (snd (hints hs g))) (maxHints (snd (hints hs g)))
                = true)
    by (vm_compute; reflexivity).
  split_all.
  - exact (proj1 (useHint_budget won (draws 0 2)) Hwon).
  - destruct (proj1 (proj2 (proj2 (proj2 (useHint_budget g (draws 0 2)))))
               Hok Hg Hlt) as (Hh & p & d & Hv & Hp & _).
    exists p, d. split; [|exact Hp]. rewrite Hv, Hh, Hu, Hm. reflexivity.
  - pose proof (proj1 (proj2 (proj2 (useHint_budget (snd (hints hs g)) (draws 0 2))))
                  Hr Hgs Hus) as E.
    rewrite Hms in E. now inversion E.
  - destruct (useHint_budget g (draws 0 2)) as (_ & _ & _ & _ & E).
    destruct (E hs Hg Hu Hm) as (_ & _ & F).
    exact F.
Defined.

(** ** C3: the attempt budget *)

Lemma makeGuess_feedback guess h g :
  is_feedback (value_of (makeGuess guess h g)) = true ->
  gameOver g = false /\ js_ge (attempts g) (maxAttempts g) = false /\
  attempts (state_of (makeGuess guess h g)) = attempts g + 1 /\
  maxAttempts (state_of (makeGuess guess h g)) = maxAttempts g /\
  secret (state_of (makeGuess guess h g)) = secret g /\
  onGameEnd (state_of (makeGuess guess h g)) = onGameEnd g /\
  (js_ge (attempts g + 1) (maxAttempts g) = true ->
     gameOver (state_of (makeGuess guess h g)) = true /\
     (onGameEnd g = true ->
        In (OnGameEnd "lose" (LosePayload (secret g)))
           (log_of (makeGuess guess h g)))).
Proof.
  unfold makeGuess.
  destruct g as [sec att maxA go gs hu mh diff tm td ti tl st ou ot oe iv nh].
  run_monad.
  destruct go; [discriminate|].
  destruct (js_ge att maxA); [discriminate|].
  destruct (test_4digits guess); [|discriminate].
  cbn.
  destruct (exact (analyzeGuess guess _) =? 4).
  - destruct ti; discriminate.
  - destruct (js_ge (att + 1) maxA).
    + destruct ti; cbn; intros _; split_all; auto;
        (intros _; split; [reflexivity|]; intros ->; cbn; auto).
    + cbn. intros _. split_all; auto. discriminate.
Qed.

Lemma useHint_keeps h g :
  attempts (state_of (useHint h g)) = attempts g /\
  maxAttempts (state_of (useHint h g)) = maxAttempts g /\
  secret (state_of (useHint h g)) = secret g /\
  onGameEnd (state_of (useHint h g)) = onGameEnd g.
Proof.
  unfold useHint.
  destruct g as [sec att maxA go gs hu mh diff tm td ti tl st ou ot oe iv nh].
  run_monad.
  destruct go; [cbn; auto|].
  destruct (js_ge hu mh); cbn; auto.
Qed.

Lemma timer_callback_keeps g :
  attempts (state_of (timer_callback g)) = attempts g /\
  maxAttempts (state_of (timer_callback g)) = maxAttempts g /\
  secret (state_of (timer_callback g)) = secret g /\
  onGameEnd (state_of (timer_callback g)) = onGameEnd g.
Proof.
  unfold timer_callback.
  destruct g as [sec att maxA go gs hu mh diff tm td ti tl st ou ot oe iv nh].
  run_monad.
  destruct (tl - 1 <=? 0); [destruct ti|]; cbn; auto.
Qed.

Lemma good_play_run cs : forall g,
  good_play cs g = true ->
  attempts (fst (run cs g)) = attempts g + count_guesses cs /\
  maxAttempts (fst (run cs g)) = maxAttempts g /\
  secret (fst (run cs g)) = secret g /\
  onGameEnd (fst (run cs g)) = onGameEnd g.
Proof.
  induction cs as [|c cs IH]; intros g H.
  - cbn. split_all; auto; lia.
  - cbn [good_play] in H.
    apply andb_prop in H. destruct H as [H Hrest].
    apply andb_prop in H. destruct H as [_ Hc].
    rewrite run_cons. specialize (IH _ Hrest).
    destruct IH as (A & B & C & D).
    destruct c as [cbs h|h|level h|enabled seconds h|guess h|h|handle];
      try discriminate; cbn [count_guesses exec] in *;
      rewrite state_of_bind, state_of_ret in *.
    + destruct (makeGuess_feedback _ _ _ Hc) as (_ & _ & A' & B' & C' & D' & _).
      split_all; [lia | congruence | congruence | congruence].
    + destruct (useHint_keeps h g) as (A' & B' & C' & D').
      split_all; [lia | congruence | congruence | congruence].
    + destruct (timer_callback_keeps g) as (A' & B' & C' & D').
      split_all; [lia | congruence | congruence | congruence].
Qed.

Lemma good_play_app cs1 : forall cs2 g,
  good_play (cs1 ++ cs2) g =
  good_play cs1 g && good_play cs2 (fst (run cs1 g)).
Proof.
  induction cs1 as [|c cs1 IH]; intros cs2 g; [reflexivity|].
  rewrite <- app_comm_cons. cbn [good_play]. rewrite IH, run_cons.
  now rewrite andb_assoc.
Qed.

Lemma count_guesses_app cs1 cs2 :
  count_guesses (cs1 ++ cs2) = count_guesses cs1 + count_guesses cs2.
Proof.
  induction cs1 as [|c cs1 IH]; [reflexivity|].
  rewrite <- app_comm_cons. destruct c; cbn [count_guesses]; lia.
Qed.

(** C3 (amended). In a game (started with [attempts = 0]) in which exactly
    [maxAttempts] valid non-winning guesses are made, possibly with hints and
    timer ticks in between, the last of these guesses leaves [gameOver] true
    and fires [onGameEnd('lose', {secret})] with the true secret; every later
    call of [makeGuess] fails with "Game over. Start new game." and changes
    nothing, so no record is appended to [guesses]. *)
Theorem attempt_budget_exhausted :
  forall (g : Game) (cs : list command) (guess : string) (h : host),
    attempts g = 0 ->
    good_play (cs ++ [MakeGuess guess h]) g = true ->
    maxAttempts g = Some (count_guesses (cs ++ [MakeGuess guess h])) ->
    let r := makeGuess guess h (fst (run cs g)) in
    gameOver (state_of r) = true /\
    secret (state_of r) = secret g /\
    (onGameEnd g = true ->
       In (OnGameEnd "lose" (LosePayload (secret g))) (log_of r)) /\
    (forall guess' h',
       makeGuess guess' h' (state_of r)
         = (Failure "Game over. Start new game.", state_of r, []) /\
       guesses (state_of (makeGuess guess' h' (state_of r)))
         = guesses (state_of r)).
Proof.
  intros g cs guess h H0 Hplay Hcount r.
  rewrite good_play_app in Hplay. apply andb_prop in Hplay.
  destruct Hplay as [Hcs Hlast].
  destruct (good_play_run cs g Hcs) as (A & B & C & D).
  cbn [good_play] in Hlast.
  apply andb_prop in Hlast. destruct Hlast as [Hlast _].
  apply andb_prop in Hlast. destruct Hlast as [_ Hfb].
  rewrite count_guesses_app in Hcount. cbn [count_guesses] in Hcount.
  destruct (makeGuess_feedback _ _ _ Hfb) as (_ & _ & _ & _ & Hs & _ & Hend).
  destruct Hend as [Hover Hlose];
    [rewrite A, B, Hcount; apply js_ge_true; lia|].
  subst r. split_all.
  - exact Hover.
  - congruence.
  - intro Hcb. rewrite <- C. apply Hlose. congruence.
  - intros guess' h'. rewrite makeGuess_game_over by exact Hover.
    split; reflexivity.
Qed.

(** Six losing guesses on the easy level, with a hint in between. *)
Lemma attempt_budget_exhausted_witness :
  let g := fst (run [Init all_callbacks (draws 1234 0);
                     SetDifficulty "easy" (draws 1234 0)] initial) in
  let cs := [MakeGuess "0000" (draws 0 0); MakeGuess "1111" (draws 0 0);
             UseHint (draws 0 2); MakeGuess "4321" (draws 0 0);
             MakeGuess "1243" (draws 0 0); MakeGuess "5678" (draws 0 0)] in
  let r := makeGuess "1235" (draws 0 0) (fst (run cs g)) in
  gameOver (state_of r) = true /\
  In (OnGameEnd "lose" (LosePayload "1234")) (log_of r) /\
  makeGuess "1234" (draws 0 0) (state_of r)
    = (Failure "Game over. Start new game.", state_of r, []).
Proof.
  intros g cs r.
  assert (H0 : attempts g = 0) by (vm_compute; reflexivity).
  assert (Hp : good_play (cs ++ [MakeGuess "1235" (draws 0 0)]) g = true)
    by (vm_compute; reflexivity).
  assert (Hc : maxAttempts g
               = Some (count_guesses (cs ++ [MakeGuess "1235" (draws 0 0)])))
    by (vm_compute; reflexivity).
  assert (Hcb : onGameEnd g = true) by (vm_compute; reflexivity).
  assert (Hs : secret g = "1234") by (vm_compute; reflexivity).
  destruct (attempt_budget_exhausted g cs "1235" (draws 0 0) H0 Hp Hc)
    as (A & _ & C & D).
  split_all.
  - exact A.
  - rewrite <- Hs. exact (C Hcb).
  - exact (proj1 (D "1234" (draws 0 0))).
Defined.

(** C3 as stated fails: after [maxAttempts] losing guesses the next call
    is answered "Game over. Start new game.", not "Maximum attempts
    reached!". *)
Lemma attempt_budget_counterexample :
  let g := fst (run [Init all_callbacks (draws 1234 0);
                     SetDifficulty "easy" (draws 1234 0)] initial) in
  let cs := [MakeGuess "0000" (draws 0 0); MakeGuess "1111" (draws 0 0);
             MakeGuess "2222" (draws 0 0); MakeGuess "3333" (draws 0 0);
             MakeGuess "4444" (draws 0 0); MakeGuess "5555" (draws 0 0)] in
  good_play cs g = true /\
  maxAttempts g = Some (count_guesses cs) /\
  value_of (makeGuess "6666" (draws 0 0) (fst (run cs g)))
    = Failure "Game over. Start new game." /\
  value_of (makeGuess "6666" (draws 0 0) (fst (run cs g)))
    <> Failure "Maximum attempts reached!".
Proof. vm_compute. split_all; try reflexivity. discriminate. Qed.

(** ** C8: the countdown *)

Lemma permitted_tick handle g :
  timer_consistent g -> permitted (Tick handle) g = true ->
  timerInterval g = Some handle.
Proof.
  unfold timer_consistent. cbn [permitted]. intros Htc Hp. rewrite Htc in Hp.
  destruct (timerInterval g) as [t|]; cbn in Hp; [|discriminate].
  rewrite orb_false_r in Hp. apply Pos.eqb_eq in Hp. now subst.
Qed.

(** One tick while the engine's interval is the live one. *)
Lemma timer_callback_live g hd :
  timerInterval g = Some hd -> intervals g = [hd] ->
  timeLeft (state_of (timer_callback g)) = timeLeft g - 1 /\
  onGameEnd (state_of (timer_callback g)) = onGameEnd g /\
  timerDuration (state_of (timer_callback g)) = timerDuration g /\
  timerMode (state_of (timer_callback g)) = timerMode g /\
  (onTimerTick g = true ->
     In (OnTimerTick (timeLeft g - 1)) (log_of (timer_callback g))) /\
  (onUpdate g = true ->
     In (OnUpdate (getState (state_of (timer_callback g))))
        (log_of (timer_callback g))) /\
  (timeLeft g - 1 <= 0 ->
     gameOver (state_of (timer_callback g)) = true /\
     timerInterval (state_of (timer_callback g)) = None /\
     intervals (state_of (timer_callback g)) = [] /\
     count_timeouts (log_of (timer_callback g))
       = if onGameEnd g then 1 else 0) /\
  (0 < timeLeft g - 1 ->
     gameOver (state_of (timer_callback g)) = gameOver g /\
     timerInterval (state_of (timer_callback g)) = Some hd /\
     intervals (state_of (timer_callback g)) = [hd] /\
     count_timeouts (log_of (timer_callback g)) = 0).
Proof.
  intros Hti Hiv. unfold timer_callback, count_timeouts.
  destruct g as [sec att maxA go gs hu mh diff tm td ti tl st ou ot oe iv nh].
  run_monad. subst.
  destruct (Z.leb_spec (tl - 1) 0).
  - cbn. rewrite Pos.eqb_refl. cbn.
    split_all; auto; try lia.
    + intros ->. cbn. auto.
    + intros ->. destruct ot, oe; cbn; auto.
    + intros _. split_all; auto.
      destruct ot, oe, ou; reflexivity.
  - cbn. split_all; auto; try lia.
    + intros ->. cbn. auto.
    + intros ->. destruct ot; cbn; auto.
    + intros _. split_all; auto.
      destruct ot, ou; reflexivity.
Qed.

Lemma no_tick_without_interval g :
  intervals g = [] -> forall handle, permitted (Tick handle) g = false.
Proof. intros H handle. cbn [permitted]. now rewrite H. Qed.

Lemma count_timeouts_app l1 l2 :
  count_timeouts (l1 ++ l2) = count_timeouts l1 + count_timeouts l2.
Proof.
  unfold count_timeouts. rewrite filter_app, length_app. lia.
Qed.

(** [S n] ticks from [timeLeft = S n]: the last one, and only it, times out. *)
Lemma countdown n : forall g hd,
  timerInterval g = Some hd -> intervals g = [hd] ->
  timeLeft g = Z.of_nat (S n) ->
  all_permitted (repeat (Tick hd) (S n)) g = true /\
  gameOver (fst (run (repeat (Tick hd) n) g)) = gameOver g /\
  gameOver (fst (run (repeat (Tick hd) (S n)) g)) = true /\
  timeLeft (fst (run (repeat (Tick hd) (S n)) g)) = 0 /\
  intervals (fst (run (repeat (Tick hd) (S n)) g)) = [] /\
  count_timeouts (snd (run (repeat (Tick hd) (S n)) g))
    = if onGameEnd g then 1 else 0.
Proof.
  induction n as [|n IH]; intros g hd Hti Hiv Htl.
  - destruct (timer_callback_live g hd Hti Hiv) as (A & _ & _ & _ & _ & _ & C & _).
    destruct C as (C1 & C2 & C3 & C4); [lia|].
    cbn [repeat all_permitted permitted]. rewrite run_cons, run_cons_log.
    cbn [run fst snd exec]. rewrite Hiv.
    rewrite state_of_bind, state_of_ret, log_of_bind.
    cbn [existsb]. rewrite Pos.eqb_refl. cbn [orb andb log_of ret snd].
    rewrite !app_nil_r.
    split_all; auto. lia.
  - destruct (timer_callback_live g hd Hti Hiv) as (A & B & _ & _ & _ & _ & _ & D).
    destruct D as (D1 & D2 & D3 & D4); [lia|].
    assert (Hex : state_of (exec (Tick hd) g) = state_of (timer_callback g))
      by (cbn [exec]; now rewrite state_of_bind, state_of_ret).
    assert (Hlog : log_of (exec (Tick hd) g) = log_of (timer_callback g))
      by (cbn [exec]; rewrite log_of_bind; cbn [log_of ret snd];
          now rewrite app_nil_r).
    destruct (IH (state_of (timer_callback g)) hd D2 D3 ltac:(lia))
      as (P & Q0 & Q & T & R & S').
    change (repeat (Tick hd) (S (S n))) with (Tick hd :: repeat (Tick hd) (S n)).
    change (repeat (Tick hd) (S n)) with (Tick hd :: repeat (Tick hd) n) at 2.
    cbn [all_permitted permitted]. rewrite !run_cons, run_cons_log, Hex, Hlog, Hiv.
    cbn [existsb]. rewrite Pos.eqb_refl. cbn [orb andb].
    rewrite count_timeouts_app, D4, S', B.
    split_all; auto. congruence.
Qed.

Lemma setTimerMode_starts seconds h g :
  timer_consistent g ->
  exists hd,
    timerInterval (state_of (setTimerMode true seconds h g)) = Some hd /\
    intervals (state_of (setTimerMode true seconds h g)) = [hd] /\
    timeLeft (state_of (setTimerMode true seconds h g))
      = match seconds with Some v => v | None => 60 end /\
    timerMode (state_of (setTimerMode true seconds h g)) = true /\
    gameOver (state_of (setTimerMode true seconds h g)) = false /\
    onGameEnd (state_of (setTimerMode true seconds h g)) = onGameEnd g.
Proof.
  unfold timer_consistent, setTimerMode, reset, resetTimer.
  destruct g as [sec att maxA go gs hu mh diff tm td ti tl st ou ot oe iv nh].
  run_monad. intros ->.
  destruct ti as [t|]; cbn; rewrite ?Pos.eqb_refl; cbn;
    eexists; split_all; reflexivity.
Qed.

(** C8. A tick happens only while timer mode is on. Each tick lowers
    [timeLeft] by one, calls [onTimerTick] with the new value and calls
    [onUpdate]; the tick that brings [timeLeft] to 0 or below sets
    [gameOver], cancels the interval (no tick can happen afterwards) and
    fires [onGameEnd('timeout')] exactly once, while a tick that leaves
    [timeLeft] positive fires no timeout and leaves the interval live. With
    timer mode switched on for 5 seconds, five ticks with no guesses can
    happen, the game is over only after the fifth, 'timeout' has then fired
    exactly once, and no further tick can happen. *)
Theorem timer_counts_down :
  (forall (g : Game) (handle : positive),
     reachable g -> permitted (Tick handle) g = true ->
     let r := timer_callback g in
     timerMode g = true /\
     timeLeft (state_of r) = timeLeft g - 1 /\
     (onTimerTick g = true -> In (OnTimerTick (timeLeft (state_of r))) (log_of r)) /\
     (onUpdate g = true -> In (OnUpdate (getState (state_of r))) (log_of r)) /\
     (timeLeft (state_of r) <= 0 ->
        gameOver (state_of r) = true /\
        timerInterval (state_of r) = None /\
        (forall handle', permitted (Tick handle') (state_of r) = false) /\
        (onGameEnd g = true -> count_timeouts (log_of r) = 1)) /\
     (0 < timeLeft (state_of r) ->
        gameOver (state_of r) = false /\
        permitted (Tick handle) (state_of r) = true /\
        count_timeouts (log_of r) = 0)) /\
  (forall (g : Game) (h : host),
     reachable g -> host_ok h = true ->
     let g0 := state_of (setTimerMode true (Some 5) h g) in
     exists handle,
       let ticks := repeat (Tick handle) 5 in
       all_permitted ticks g0 = true /\
       gameOver (fst (run (repeat (Tick handle) 4) g0)) = false /\
       gameOver (fst (run ticks g0)) = true /\
       (onGameEnd g = true -> count_timeouts (snd (run ticks g0)) = 1) /\
       (forall handle', permitted (Tick handle') (fst (run ticks g0)) = false)).
Proof.
  split.
  - intros g handle Hr Hp r. subst r.
    apply reachable_invariant in Hr.
    destruct Hr as (_ & _ & _ & _ & _ & _ & _ & Htc & Htm & _).
    pose proof (permitted_tick handle g Htc Hp) as Hti.
    assert (Hiv : intervals g = [handle])
      by (unfold timer_consistent in Htc; now rewrite Htc, Hti).
    destruct (Htm ltac:(congruence)) as [Hmode Hgo].
    destruct (timer_callback_live g handle Hti Hiv)
      as (A & B & _ & _ & C & D & E & F).
    rewrite A. split_all; auto.
    + intro Hle. destruct (E Hle) as (E1 & E2 & E3 & E4).
      split_all; auto.
      * now apply no_tick_without_interval.
      * intros Hcb. now rewrite E4, Hcb.
    + intro Hlt. destruct (F Hlt) as (F1 & F2 & F3 & F4).
      split; [congruence|]. split; [|exact F4].
      cbn [permitted]. rewrite F3. cbn. now rewrite Pos.eqb_refl.
  - intros g h Hr Hok g0. subst g0.
    apply reachable_invariant in Hr.
    destruct Hr as (_ & _ & _ & _ & _ & _ & _ & Htc & _).
    destruct (setTimerMode_starts (Some 5) h g Htc)
      as (hd & A & B & C & D & E & F).
    exists hd.
    destruct (countdown 4 _ hd A B C) as (P & Q0 & Q & T & R & S').
    cbv zeta. split; [exact P|]. split; [now rewrite Q0|].
    split; [exact Q|]. split.
    + intro Hcb. rewrite S', F, Hcb. reflexivity.
    + now apply no_tick_without_interval.
Qed.

Lemma timer_counts_down_witness :
  let g := fst (run [Init all_callbacks (draws 1234 0);
                     SetTimerMode true (Some 2) (draws 1234 0);
                     Tick 2] initial) in
  timeLeft (state_of (timer_callback g)) = 0 /\
  gameOver (state_of (timer_callback g)) = true /\
  count_timeouts (log_of (timer_callback g)) = 1 /\
  (exists handle,
     gameOver (fst (run (repeat (Tick handle) 5)
                      (state_of (setTimerMode true (Some 5) (draws 7 0) g))))
       = true).
Proof.
  intro g.
  assert (Hr : reachable g)
    by (apply run_reachable; [apply reachable_initial | vm_compute; reflexivity]).
  assert (Hp : permitted (Tick 2) g = true) by (vm_compute; reflexivity).
  assert (Htl : timeLeft g = 1) by (vm_compute; reflexivity).
  assert (Hcb : onGameEnd g = true) by (vm_compute; reflexivity).
  destruct timer_counts_down as [Htick Hfive].
  destruct (Htick g 2%positive Hr Hp) as (_ & A & _ & _ & B & _).
  destruct B as (B1 & _ & _ & B4); [rewrite A, Htl; lia|].
  split_all.
  - rewrite A, Htl. reflexivity.
  - exact B1.
  - exact (B4 Hcb).
  - destruct (Hfive g (draws 7 0) Hr eq_refl) as (hd & _ & _ & Q & _).
    exists hd. exact Q.
Defined.

(** ** C9: the clock never goes below zero for positive durations *)

Lemma reset_timer_invariant h g :
  0 <= timerDuration g -> 0 <= timeLeft g ->
  (timerMode g = true -> 1 <= timerDuration g) ->
  (timerMode g = false -> timerInterval g = None) ->
  timer_invariant (state_of (reset h g)).
Proof.
  unfold timer_invariant, reset, resetTimer.
  destruct g as [sec att maxA go gs hu mh diff tm td ti tl st ou ot oe iv nh].
  run_monad. intros Hd Hl Hm Hi.
  destruct tm; run_monad.
  - specialize (Hm eq_refl).
    destruct ti; cbn; split_all; auto; try lia; try congruence;
      try (intros; lia); try (intros; congruence).
  - rewrite (Hi eq_refl). cbn.
    split_all; auto; try lia; try congruence;
      try (intros; lia); try (intros; congruence).
Qed.

Lemma exec_timer_invariant c g :
  invariant g -> timer_invariant g ->
  permitted c g = true -> duration_ok c = true ->
  timer_invariant (state_of (exec c g)).
Proof.
  intros Hinv Htinv Hp Hd.
  destruct Hinv as (_ & _ & _ & _ & _ & _ & _ & Htc & Htm & _).
  destruct Htinv as (T1 & T2 & T3 & T4 & T5).
  assert (Hoff : timerMode g = false -> timerInterval g = None).
  { intro Hf. destruct (timerInterval g) eqn:E; [|reflexivity].
    destruct (Htm ltac:(discriminate)). congruence. }
  destruct c as [cbs h|h|level h|enabled seconds h|guess h|h|handle];
    cbn [exec permitted duration_ok] in *;
    rewrite state_of_bind, state_of_ret.
  - unfold init. autorewrite with monad.
    apply reset_timer_invariant; cbn; auto. intro. now apply T3.
  - apply reset_timer_invariant; auto. intro. now apply T3.
  - unfold setDifficulty.
    destruct (settings_get level) as [[ma mh]|].
    + autorewrite with monad.
      apply reset_timer_invariant; cbn; auto. intro. now apply T3.
    + cbn. unfold timer_invariant. auto.
  - unfold setTimerMode. autorewrite with monad.
    apply reset_timer_invariant;
      unfold timer_consistent, resetTimer in *;
      destruct g as [sec att maxA go gs hu mh diff tm td ti tl st ou ot oe iv nh];
      destruct enabled, seconds as [v|], ti; run_monad;
      try lia; try congruence; try (intros; lia); try (intros; congruence);
      auto.
  - unfold timer_invariant, makeGuess.
    destruct g as [sec att maxA go gs hu mh diff tm td ti tl st ou ot oe iv nh].
    run_monad.
    destruct go; [cbn; auto|].
    destruct (js_ge att maxA); [cbn; split_all; auto; intros; congruence|].
    destruct (test_4digits guess); [|cbn; auto].
    cbn.
    destruct (exact (analyzeGuess guess _) =? 4).
    + destruct ti; cbn; split_all; auto; try congruence;
        try (intros; congruence).
    + destruct (js_ge (att + 1) maxA); [destruct ti|]; cbn; split_all; auto;
        try congruence; try (intros; congruence).
  - unfold timer_invariant, useHint.
    destruct g as [sec att maxA go gs hu mh diff tm td ti tl st ou ot oe iv nh].
    run_monad.
    destruct go; [cbn; auto|].
    destruct (js_ge hu mh); cbn; auto.
  - pose proof (permitted_tick handle g Htc Hp) as Hti.
    assert (Hiv : intervals g = [handle])
      by (unfold timer_consistent in Htc; now rewrite Htc, Hti).
    destruct (timer_callback_live g handle Hti Hiv)
      as (A & _ & B & C & _ & _ & E & F).
    specialize (T4 ltac:(congruence)).
    unfold timer_invariant. rewrite A, B, C.
    split_all; try lia.
    + intro Hm. specialize (T3 Hm). lia.
    + destruct (Z.leb_spec (timeLeft g - 1) 0) as [Hle|Hlt].
      * destruct (E Hle) as (_ & E2 & _). congruence.
      * lia.
    + destruct (Z.leb_spec (timeLeft g - 1) 0) as [Hle|Hlt].
      * destruct (E Hle) as (E1 & _). congruence.
      * destruct (F Hlt) as (_ & F2 & _). congruence.
Qed.

Lemma initial_timer_invariant : timer_invariant initial.
Proof.
  unfold timer_invariant, initial. cbn.
  split_all; try lia; intros; congruence.
Qed.

Lemma run_timer_invariant cs : forall g,
  invariant g -> timer_invariant g ->
  all_permitted cs g = true -> forallb duration_ok cs = true ->
  invariant (fst (run cs g)) /\ timer_invariant (fst (run cs g)).
Proof.
  induction cs as [|c cs IH]; intros g Hinv Htinv Hp Hd; [now split|].
  cbn [all_permitted forallb] in *.
  apply andb_prop in Hp. destruct Hp as [Hc Hp].
  apply andb_prop in Hd. destruct Hd as [Hdc Hd].
  rewrite run_cons. apply IH; auto.
  - now apply exec_invariant.
  - now apply exec_timer_invariant.
Qed.

(** C9 (amended). In every state reached by commands whose [setTimerMode]
    calls pass a non-negative duration, positive when the timer is switched
    on, [timerDuration] and [timeLeft] are non-negative, and while timer mode
    is on and the game is not over [timeLeft] lies between 1 and
    [timerDuration]: the tick that brings it to 0 ends the game. *)
Theorem timer_never_negative :
  forall cs : list command,
    all_permitted cs initial = true ->
    forallb duration_ok cs = true ->
    let g := fst (run cs initial) in
    0 <= timerDuration g /\
    0 <= timeLeft g /\
    (timerMode g = true -> gameOver g = false ->
       1 <= timeLeft g <= timerDuration g).
Proof.
  intros cs Hp Hd g.
  destruct (run_timer_invariant cs initial initial_invariant
              initial_timer_invariant Hp Hd) as [_ (T1 & T2 & T3 & T4 & T5)].
  subst g. split; [exact T1|]. split; [exact T2|].
  intros Hm Hgo. specialize (T4 (T5 Hm Hgo)). specialize (T3 Hm). lia.
Qed.

Lemma timer_never_negative_witness :
  let g := fst (run [Init all_callbacks (draws 1234 0);
                     SetTimerMode true (Some 3) (draws 99 0);
                     Tick 2; MakeGuess "0000" (draws 0 0); Tick 2] initial) in
  0 <= timerDuration g /\ 0 <= timeLeft g /\ 1 <= timeLeft g <= timerDuration g.
Proof.
  intro g.
  destruct (timer_never_negative
              [Init all_callbacks (draws 1234 0);
               SetTimerMode true (Some 3) (draws 99 0);
               Tick 2; MakeGuess "0000" (draws 0 0); Tick 2])
    as (A & B & C); [vm_compute; reflexivity | vm_compute; reflexivity |].
  split_all; [exact A | exact B | apply C; vm_compute; reflexivity ..].
Defined.

(** C9 as stated fails: with the timer switched on for 0 seconds the first
    tick takes [timeLeft] to -1. *)
Lemma timer_zero_duration_counterexample :
  let cs := [Init all_callbacks (draws 1234 0);
             SetTimerMode true (Some 0) (draws 99 0); Tick 2] in
  all_permitted cs initial = true /\
  reachable (fst (run cs initial)) /\
  timerMode (fst (run cs initial)) = true /\
  timeLeft (fst (run cs initial)) = -1 /\
  ~ 0 <= timeLeft (fst (run cs initial)).
Proof.
  intro cs.
  assert (Hp : all_permitted cs initial = true) by (vm_compute; reflexivity).
  split_all.
  - exact Hp.
  - apply run_reachable; [apply reachable_initial | exact Hp].
  - vm_compute. reflexivity.
  - vm_compute. reflexivity.
  - vm_compute. intro H. apply H. reflexivity.
Qed.

(** ** Further properties of the engine *)


Lemma reset_secret h g :
  secret (state_of (reset h g)) = padStart 4 "0" (toString (random10000 h)).
Proof.
  unfold reset, resetTimer.
  destruct g as [sec att maxA go gs hu mh diff tm td ti tl st ou ot oe iv nh].
  run_monad. destruct tm; run_monad; [destruct ti; run_monad|]; reflexivity.
Qed.

(** X1. [reset] stores the drawn number as exactly four decimal digits,
    leading zeros kept: the new secret passes the guess format check and
    denotes the number drawn, so different draws give different secrets. *)
Theorem reset_secret_four_digits :
  forall (h : host) (g : Game),
    host_ok h = true ->
    test_4digits (secret (state_of (reset h g))) = true /\
    digits_value 0 (secret (state_of (reset h g))) = random10000 h /\
    (forall h' g',
       host_ok h' = true ->
       secret (state_of (reset h' g')) = secret (state_of (reset h g)) ->
       random10000 h' = random10000 h).
Proof.
  pose proof secret_value as Hval.
  intros h g Hok. apply host_ok_random in Hok. destruct Hok as [Hr _].
  rewrite reset_secret. split_all.
  - now apply secret_4digits.
  - now apply Hval.
  - intros h' g' Hok' E. apply host_ok_random in Hok'. destruct Hok' as [Hr' _].
    rewrite reset_secret in E.
    rewrite <- (Hval _ Hr), <- (Hval _ Hr'). now rewrite E.
Qed.

Lemma reset_secret_four_digits_witness :
  secret (state_of (reset (draws 42 0) initial)) = "0042" /\
  digits_value 0 (secret (state_of (reset (draws 42 0) initial))) = 42.
Proof.
  destruct (reset_secret_four_digits (draws 42 0) initial eq_refl) as (_ & B & _).
  split; [vm_compute; reflexivity | exact B].
Defined.

(** X2. The score never rises with more attempts or more hints used, and
    never falls with more time left on the clock. *)
Theorem calculateScore_monotone :
  forall (g : Game) (a a' e e' : Z),
    (a <= a' -> calculateScore a' e' g <= calculateScore a e g) /\
    (forall k, 0 <= k ->
       calculateScore a e (set_hintsUsed (hintsUsed g + k) g)
         <= calculateScore a e g) /\
    (forall k, 0 <= k ->
       calculateScore a e g
         <= calculateScore a e (set_timeLeft (timeLeft g + k) g)).
Proof.
  intros g a a' e e'. unfold calculateScore. split_all.
  - intro H. destruct (timerMode g && (timeLeft g >? 0)); lia.
  - intros k Hk. cbn.
    destruct (timerMode g && (timeLeft g >? 0)); lia.
  - intros k Hk. cbn. rewrite !Z.gtb_ltb.
    destruct (timerMode g); cbn; [|lia].
    destruct (Z.ltb_spec 0 (timeLeft g)), (Z.ltb_spec 0 (timeLeft g + k)); lia.
Qed.

Lemma calculateScore_monotone_witness :
  calculateScore 3 0 initial <= calculateScore 2 4 initial /\
  calculateScore 2 0 (set_hintsUsed (hintsUsed initial + 1) initial)
    <= calculateScore 2 0 initial.
Proof.
  destruct (calculateScore_monotone initial 2 3 4 0) as (A & _).
  destruct (calculateScore_monotone initial 2 2 0 0) as (_ & B & _).
  split; [apply A; lia | apply B; lia].
Defined.

(** X3. The engine owns at most one interval: in every reachable state
    the host's live handles are exactly the one held in [timerInterval], a
    live interval means timer mode is on and the game is not over, and once
    the game is over no tick can happen. *)
Theorem at_most_one_interval :
  forall g : Game,
    reachable g ->
    ((timerInterval g = None /\ intervals g = []) \/
     (exists handle,
        timerInterval g = Some handle /\ intervals g = [handle] /\
        timerMode g = true /\ gameOver g = false)) /\
    (gameOver g = true -> forall handle, permitted (Tick handle) g = false).
Proof.
  intros g Hr. apply reachable_invariant in Hr.
  destruct Hr as (_ & _ & _ & _ & _ & _ & _ & Htc & Htm & _).
  unfold timer_consistent in Htc.
  destruct (timerInterval g) as [t|] eqn:E.
  - destruct (Htm ltac:(discriminate)) as [Hm Hgo]. split.
    + right. exists t. auto.
    + intro. congruence.
  - split; [now left|]. intros _. now apply no_tick_without_interval.
Qed.

Lemma at_most_one_interval_witness :
  let g := fst (run [SetTimerMode true None (draws 5 0);
                     SetTimerMode true (Some 30) (draws 6 0);
                     Reset (draws 7 0); MakeGuess "0007" (draws 0 0)] initial) in
  gameOver g = true /\ permitted (Tick 4) g = false.
Proof.
  intro g.
  assert (Hr : reachable g)
    by (apply run_reachable; [apply reachable_initial | vm_compute; reflexivity]).
  assert (Hgo : gameOver g = true) by (vm_compute; reflexivity).
  split; [exact Hgo | exact (proj2 (at_most_one_interval g Hr) Hgo 4%positive)].
Defined.

(** *** Difficulty levels *)

Lemma reset_keeps_budget h g :
  difficulty (state_of (reset h g)) = difficulty g /\
  maxAttempts (state_of (reset h g)) = maxAttempts g /\
  maxHints (state_of (reset h g)) = maxHints g.
Proof.
  unfold reset, resetTimer.
  destruct g as [sec att maxA go gs hu mh diff tm td ti tl st ou ot oe iv nh].
  run_monad. destruct tm; run_monad; [destruct ti; run_monad|]; auto.
Qed.

Lemma exec_keeps_budget c g :
  (forall level h, c <> SetDifficulty level h) ->
  difficulty (state_of (exec c g)) = difficulty g /\
  maxAttempts (state_of (exec c g)) = maxAttempts g /\
  maxHints (state_of (exec c g)) = maxHints g.
Proof.
  intro Hc. destruct c as [cbs h|h|level h|enabled seconds h|guess h|h|handle];
    cbn [exec]; rewrite state_of_bind, state_of_ret.
  - unfold init. autorewrite with monad.
    apply (reset_keeps_budget h (set_callbacks cbs g)).
  - apply reset_keeps_budget.
  - exfalso. now apply (Hc level h).
  - unfold setTimerMode. autorewrite with monad.
    match goal with |- context [reset h ?x] =>
      destruct (reset_keeps_budget h x) as (A & B & C) end.
    rewrite A, B, C. clear A B C. unfold resetTimer.
    destruct g as [sec att maxA go gs hu mh diff tm td ti tl st ou ot oe iv nh].
    destruct enabled, ti; run_monad; auto.
  - unfold makeGuess.
    destruct g as [sec att maxA go gs hu mh diff tm td ti tl st ou ot oe iv nh].
    run_monad. destruct go; [cbn; auto|].
    destruct (js_ge att maxA); [cbn; auto|].
    destruct (test_4digits guess); [|cbn; auto]. cbn.
    destruct (exact (analyzeGuess guess _) =? 4).
    + destruct ti; cbn; auto.
    + destruct (js_ge (att + 1) maxA); [destruct ti|]; cbn; auto.
  - unfold useHint.
    destruct g as [sec att maxA go gs hu mh diff tm td ti tl st ou ot oe iv nh].
    run_monad. destruct go; [cbn; auto|].
    destruct (js_ge hu mh); cbn; auto.
  - unfold timer_callback.
    destruct g as [sec att maxA go gs hu mh diff tm td ti tl st ou ot oe iv nh].
    run_monad. destruct (tl - 1 <=? 0); [destruct ti|]; cbn; auto.
Qed.

Lemma setDifficulty_installs level ma mh h g :
  settings_get level = Some (ma, mh) ->
  difficulty (state_of (setDifficulty level h g)) = level /\
  maxAttempts (state_of (setDifficulty level h g)) = ma /\
  maxHints (state_of (setDifficulty level h g)) = mh /\
  attempts (state_of (setDifficulty level h g)) = 0 /\
  gameOver (state_of (setDifficulty level h g)) = false.
Proof.
  intro E. unfold setDifficulty. rewrite E. autorewrite with monad.
  match goal with |- context [reset h ?x] =>
    destruct (reset_keeps_budget h x) as (A & B & C);
    destruct (reset_clears h x) as (D & _ & _ & F) end.
  rewrite A, B, C, D, F. cbn. auto.
Qed.

Lemma settings_get_rows level ma mh :
  settings_get level = Some (ma, mh) ->
  (lookup_setting DIFFICULTY_SETTINGS level = None /\
   inherited_name level = true /\ ma = None /\ mh = None) \/
  (exists a hi,
     lookup_setting DIFFICULTY_SETTINGS level = Some (a, hi) /\
     ma = Some a /\ mh = Some hi /\
     ((a, hi) = (6, 5) \/ (a, hi) = (15, 3) \/ (a, hi) = (15, 0))).
Proof.
  unfold settings_get.
  destruct (lookup_setting DIFFICULTY_SETTINGS level) as [[a hi]|] eqn:E.
  - intros [= <- <-]. right. exists a, hi. split_all; auto.
    revert E. unfold DIFFICULTY_SETTINGS. cbn [lookup_setting].
    repeat (destruct (String.eqb _ level); [intro H; inversion H; auto|]).
    discriminate.
  - destruct (inherited_name level) eqn:I; [|discriminate].
    intros [= <- <-]. left. auto.
Qed.

(** X4. [setDifficulty] with a level of the table installs that level's
    attempts and hints and starts a new game. A name the table only
    inherits from [Object.prototype], such as 'constructor', also passes the
    guard: the call then leaves both budgets undefined and starts a new
    game. In every reachable state the budgets are what
    [DIFFICULTY_SETTINGS[difficulty]] yields: either a row of the table,
    (6,5), (15,3) or (15,0), within which [attempts] and [hintsUsed] stay,
    or both undefined with [difficulty] an inherited name. *)
Theorem difficulty_settings_respected :
  (forall level a hi h g,
     lookup_setting DIFFICULTY_SETTINGS level = Some (a, hi) ->
     difficulty (state_of (setDifficulty level h g)) = level /\
     maxAttempts (state_of (setDifficulty level h g)) = Some a /\
     maxHints (state_of (setDifficulty level h g)) = Some hi /\
     attempts (state_of (setDifficulty level h g)) = 0 /\
     gameOver (state_of (setDifficulty level h g)) = false) /\
  (forall level h g,
     lookup_setting DIFFICULTY_SETTINGS level = None ->
     inherited_name level = true ->
     difficulty (state_of (setDifficulty level h g)) = level /\
     maxAttempts (state_of (setDifficulty level h g)) = None /\
     maxHints (state_of (setDifficulty level h g)) = None /\
     attempts (state_of (setDifficulty level h g)) = 0 /\
     gameOver (state_of (setDifficulty level h g)) = false) /\
  (forall g,
     reachable g ->
     settings_get (difficulty g) = Some (maxAttempts g, maxHints g) /\
     ((exists a hi,
         maxAttempts g = Some a /\ maxHints g = Some hi /\
         attempts g <= a /\ hintsUsed g <= hi /\
         ((a, hi) = (6, 5) \/ (a, hi) = (15, 3) \/ (a, hi) = (15, 0))) \/
      (maxAttempts g = None /\ maxHints g = None /\
       inherited_name (difficulty g) = true))).
Proof.
  split_all.
  - intros level a hi h g E. apply setDifficulty_installs.
    unfold settings_get. now rewrite E.
  - intros level h g E I. apply setDifficulty_installs.
    unfold settings_get. now rewrite E, I.
  - intros g Hr.
    assert (Hrow : settings_get (difficulty g)
                   = Some (maxAttempts g, maxHints g)).
    { induction Hr as [|c g Hr IH Hp]; [reflexivity|].
      destruct c as [cbs h|h|level h|enabled seconds h|guess h|h|handle];
        try (match goal with |- context [exec ?c0 g] =>
               destruct (exec_keeps_budget c0 g ltac:(intros; discriminate))
                 as (A & B & C) end;
             rewrite A, B, C; exact IH).
      cbn [exec]. rewrite state_of_bind, state_of_ret.
      destruct (settings_get level) as [[ma mh]|] eqn:E.
      - destruct (setDifficulty_installs level ma mh h g E) as (A & B & C & _).
        now rewrite A, B, C.
      - unfold setDifficulty. rewrite E. exact IH. }
    split; [exact Hrow|].
    apply reachable_invariant in Hr.
    destruct Hr as (_ & _ & Hma & Hhi & _).
    destruct (settings_get_rows _ _ _ Hrow)
      as [(_ & I & Ea & Eh)|(a & hi & _ & Ea & Eh & Rows)].
    + right. auto.
    + left. exists a, hi. destruct (Hma a Ea) as [_ Hle].
      specialize (Hhi hi Eh). split_all; auto.
Qed.

Lemma difficulty_settings_respected_witness :
  maxAttempts (state_of (setDifficulty "easy" (draws 1 0) initial)) = Some 6 /\
  maxHints (state_of (setDifficulty "toString" (draws 1 0) initial)) = None /\
  settings_get
    (difficulty (fst (run [SetDifficulty "hard" (draws 1 0)] initial)))
  = Some (Some 15, Some 0).
Proof.
  destruct difficulty_settings_respected as (A & B & C).
  split_all.
  - apply (A "easy" 6 5). reflexivity.
  - apply (B "toString"); reflexivity.
  - destruct (C (fst (run [SetDifficulty "hard" (draws 1 0)] initial))) as [R _].
    + apply run_reachable; [apply reachable_initial | vm_compute; reflexivity].
    + rewrite R. vm_compute. reflexivity.
Defined.

(** *** Playing a game on *)

(** X5. Guesses, hints and timer ticks never start a new game: they leave
    the secret and the budgets as they are, never lower [attempts] or
    [hintsUsed], and never bring a finished game back to life. *)
Theorem in_game_commands_monotone :
  forall (c : command) (g : Game),
    in_game c = true ->
    secret (state_of (exec c g)) = secret g /\
    maxAttempts (state_of (exec c g)) = maxAttempts g /\
    maxHints (state_of (exec c g)) = maxHints g /\
    attempts g <= attempts (state_of (exec c g)) /\
    hintsUsed g <= hintsUsed (state_of (exec c g)) /\
    (gameOver g = true -> gameOver (state_of (exec c g)) = true).
Proof.
  intros c g Hc.
  destruct c as [cbs h|h|level h|enabled seconds h|guess h|h|handle]; try discriminate;
    cbn [exec]; rewrite state_of_bind, state_of_ret.
  - unfold makeGuess.
    destruct g as [sec att maxA go gs hu mh diff tm td ti tl st ou ot oe iv nh].
    run_monad. destruct go; [cbn; split_all; auto; lia|].
    destruct (js_ge att maxA); [cbn; split_all; auto; lia|].
    destruct (test_4digits guess); [|cbn; split_all; auto; lia]. cbn.
    destruct (exact (analyzeGuess guess _) =? 4).
    + destruct ti; cbn; split_all; auto; lia.
    + destruct (js_ge (att + 1) maxA); [destruct ti|]; cbn; split_all; auto; lia.
  - unfold useHint.
    destruct g as [sec att maxA go gs hu mh diff tm td ti tl st ou ot oe iv nh].
    run_monad. destruct go; [cbn; split_all; auto; lia|].
    destruct (js_ge hu mh); cbn; split_all; auto; lia.
  - unfold timer_callback.
    destruct g as [sec att maxA go gs hu mh diff tm td ti tl st ou ot oe iv nh].
    run_monad. destruct (tl - 1 <=? 0); [destruct ti|]; cbn; split_all; auto; lia.
Qed.

Lemma in_game_commands_monotone_witness :
  let g := state_of (init all_callbacks (draws 42 0) initial) in
  secret (state_of (exec (MakeGuess "1234" (draws 0 0)) g)) = secret g /\
  attempts g <= attempts (state_of (exec (MakeGuess "1234" (draws 0 0)) g)).
Proof.
  intro g.
  destruct (in_game_commands_monotone (MakeGuess "1234" (draws 0 0)) g eq_refl)
    as (A & _ & _ & B & _).
  split; [exact A | exact B].
Defined.

(** *** Starting a game *)

Lemma log_of_modify f g : log_of (modify f g) = [].
Proof. reflexivity. Qed.

Lemma log_of_get g : log_of (get g) = [].
Proof. reflexivity. Qed.

Lemma log_of_notify_update g :
  log_of (notify_update g) = if onUpdate g then [OnUpdate (getState g)] else [].
Proof. reflexivity. Qed.

Lemma resetTimer_silent g : log_of (resetTimer g) = [].
Proof.
  unfold resetTimer.
  destruct g as [sec att maxA go gs hu mh diff tm td ti tl st ou ot oe iv nh].
  destruct ti, tm; reflexivity.
Qed.

Lemma reset_keeps_callbacks h g :
  onUpdate (state_of (reset h g)) = onUpdate g /\
  onTimerTick (state_of (reset h g)) = onTimerTick g /\
  onGameEnd (state_of (reset h g)) = onGameEnd g.
Proof.
  unfold reset, resetTimer.
  destruct g as [sec att maxA go gs hu mh diff tm td ti tl st ou ot oe iv nh].
  run_monad. destruct tm; run_monad; [destruct ti; run_monad|]; auto.
Qed.

Lemma reset_log h g :
  log_of (reset h g) =
  if onUpdate g then [OnUpdate (getState (state_of (reset h g)))] else [].
Proof.
  destruct (reset_keeps_callbacks h g) as (Hu & _ & _). rewrite <- Hu.
  unfold reset.
  repeat (rewrite log_of_bind || rewrite state_of_bind).
  rewrite !log_of_modify, !state_of_modify, log_of_get, state_of_get, value_of_get.
  rewrite state_of_notify_update, log_of_notify_update.
  cbn [app].
  match goal with |- (log_of (when ?b resetTimer ?x) ++ _)%list = _ =>
    assert (E : log_of (when b resetTimer x) = [])
      by (unfold when; destruct b; [apply resetTimer_silent | reflexivity]);
    rewrite E end.
  reflexivity.
Qed.

(** X6. [reset] notifies the presentation layer exactly once, after all
    variables are set: the only callback it runs is [onUpdate] (when
    registered), with the snapshot of the new game, in which the secret is
    masked, no attempt or hint is used and the history is empty. *)
Theorem reset_notifies_once :
  forall (h : host) (g : Game),
    log_of (reset h g) =
      (if onUpdate g then [OnUpdate (getState (state_of (reset h g)))] else []) /\
    snap_secret (getState (state_of (reset h g))) = "????" /\
    snap_attempts (getState (state_of (reset h g))) = 0 /\
    snap_hintsUsed (getState (state_of (reset h g))) = 0 /\
    snap_guesses (getState (state_of (reset h g))) = [] /\
    snap_gameOver (getState (state_of (reset h g))) = false.
Proof.
  intros h g. split; [apply reset_log|].
  destruct (reset_clears h g) as (A & B & C & D).
  unfold getState.
  cbn [snap_secret snap_attempts snap_hintsUsed snap_guesses snap_gameOver].
  rewrite A, B, C, D. auto.
Qed.

(** *** Winning *)

Lemma spec_exact_four S G :
  test_4digits S = true -> test_4digits G = true ->
  (spec_exact S G =? 4) = String.eqb G S.
Proof.
  intros HS HG.
  apply test_4digits_shape in HS. destruct HS as (a & b & c & d & -> & _).
  apply test_4digits_shape in HG. destruct HG as (a' & b' & c' & d' & -> & _).
  unfold spec_exact, positions. cbn [split_chars list_ascii_of_string combine].
  cbn [filter String.eqb]. unfold is_exact. cbn [fst snd].
  rewrite (Ascii.eqb_sym a' a), (Ascii.eqb_sym b' b),
          (Ascii.eqb_sym c' c), (Ascii.eqb_sym d' d).
  destruct (Ascii.eqb a a'), (Ascii.eqb b b'), (Ascii.eqb c c'),
           (Ascii.eqb d d'); reflexivity.
Qed.

Lemma analyzeGuess_exact_four g guess :
  test_4digits (secret g) = true -> test_4digits guess = true ->
  (exact (analyzeGuess guess g) =? 4) = String.eqb guess (secret g).
Proof.
  intros HS HG. rewrite analyzeGuess_spec by assumption.
  now apply spec_exact_four.
Qed.

(** X7. While a game is on, a well-formed guess wins exactly when it is
    the secret. The winning call ends the game, cancels the countdown,
    returns the score of the attempt just made and fires
    [onGameEnd('win', {attempts, score})] with the same numbers. *)
Theorem makeGuess_wins_iff_secret :
  forall (g : Game) (guess : string) (h : host),
    reachable g -> gameOver g = false ->
    test_4digits (secret g) = true -> test_4digits guess = true ->
    (is_won (value_of (makeGuess guess h g)) = true <-> guess = secret g) /\
    (guess = secret g ->
       value_of (makeGuess guess h g)
         = Won "🎉 ACCESS GRANTED! You win! 🎉"
               (calculateScore (attempts g + 1) 4 g) /\
       gameOver (state_of (makeGuess guess h g)) = true /\
       intervals (state_of (makeGuess guess h g)) = [] /\
       (onGameEnd g = true ->
          In (OnGameEnd "win"
                (WinPayload (attempts g + 1)
                   (calculateScore (attempts g + 1) 4 g)))
             (log_of (makeGuess guess h g)))).
Proof.
  intros g guess h Hr Hgo HS HG.
  pose proof (analyzeGuess_exact_four g guess HS HG) as Hex.
  pose proof (reachable_guard_false g Hr Hgo) as Hlt.
  apply reachable_invariant in Hr.
  destruct Hr as (_ & _ & _ & _ & _ & _ & _ & Htc & _).
  unfold timer_consistent in Htc.
  unfold makeGuess.
  destruct g as [sec att maxA go gs hu mh diff tm td ti tl st ou ot oe iv nh].
  run_monad. subst go iv. rewrite Hlt, HG. cbn.
  rewrite Hex.
  destruct (String.eqb_spec guess sec) as [E|E].
  - destruct ti; cbn; rewrite ?Pos.eqb_refl; cbn;
      (split; [split; auto|]); intros _; unfold calculateScore; cbn;
      split_all; auto; intros ->; cbn; auto.
  - destruct (js_ge (att + 1) maxA); [destruct ti|]; cbn;
      (split; [split; [discriminate | contradiction] | contradiction]).
Qed.

Lemma makeGuess_wins_iff_secret_witness :
  let g := fst (run [Init all_callbacks (draws 42 0)] initial) in
  is_won (value_of (makeGuess "0042" (draws 0 0) g)) = true /\
  gameOver (state_of (makeGuess "0042" (draws 0 0) g)) = true.
Proof.
  intro g.
  assert (Hr : reachable g)
    by (apply run_reachable; [apply reachable_initial | vm_compute; reflexivity]).
  assert (Hs : "0042" = secret g) by (vm_compute; reflexivity).
  destruct (makeGuess_wins_iff_secret g "0042" (draws 0 0) Hr)
    as (A & B); [vm_compute; reflexivity ..|].
  split; [apply A; exact Hs | apply (B Hs)].
Defined.

(** *** Bounds and symmetry of the analysis *)

Lemma sumZ_plus {A} (f1 f2 : A -> Z) l :
  sumZ (fun x => f1 x + f2 x) l = sumZ f1 l + sumZ f2 l.
Proof.
  unfold sumZ. induction l as [|x l IH]; cbn; [reflexivity | rewrite IH; lia].
Qed.

Lemma sumZ_le {A} (f1 f2 : A -> Z) l :
  (forall x, f1 x <= f2 x) -> sumZ f1 l <= sumZ f2 l.
Proof.
  intro H. unfold sumZ. induction l as [|x l IH]; cbn; [lia|].
  specialize (H x). lia.
Qed.

Lemma sumZ_ext {A} (f1 f2 : A -> Z) l :
  (forall x, f1 x = f2 x) -> sumZ f1 l = sumZ f2 l.
Proof.
  intro H. unfold sumZ. induction l as [|x l IH]; cbn; [reflexivity|].
  now rewrite H, IH.
Qed.

Lemma indicator_sum x :
  In x decimal_digits ->
  sumZ (fun d => if Ascii.eqb x d then 1 else 0) decimal_digits = 1.
Proof.
  unfold decimal_digits. cbn [In].
  intros [<-|[<-|[<-|[<-|[<-|[<-|[<-|[<-|[<-|[<-|[]]]]]]]]]]]; reflexivity.
Qed.

Lemma occurrences_sum l :
  (forall c, In c l -> In c decimal_digits) ->
  sumZ (fun d => occurrences d l) decimal_digits = Z.of_nat (List.length l).
Proof.
  induction l as [|x l IH]; intro H.
  - reflexivity.
  - cbn [occurrences List.length]. rewrite sumZ_plus, indicator_sum, IH.
    + lia.
    + intros c Hc. apply H. now right.
    + apply H. now left.
Qed.

Lemma filter_split_length {A} (f : A -> bool) l :
  (List.length (filter f l) + List.length (filter (fun x => negb (f x)) l)
   = List.length l)%nat.
Proof.
  induction l as [|x l IH]; cbn; [reflexivity|].
  destruct (f x); cbn; lia.
Qed.

Lemma positions_length S G :
  test_4digits S = true -> test_4digits G = true ->
  List.length (positions S G) = 4%nat.
Proof.
  intros HS HG.
  apply test_4digits_shape in HS. destruct HS as (a & b & c & d & -> & _).
  apply test_4digits_shape in HG. destruct HG as (a' & b' & c' & d' & -> & _).
  reflexivity.
Qed.

(** X8. For a 4-digit secret and a 4-digit guess the analysis gives
    [0 <= exact <= 4], [0 <= partial] and [exact + partial <= 4]; the secret
    itself scores exact 4, partial 0. *)
Theorem analyzeGuess_bounds :
  forall (g : Game) (guess : string),
    test_4digits (secret g) = true -> test_4digits guess = true ->
    0 <= exact (analyzeGuess guess g) <= 4 /\
    0 <= partial (analyzeGuess guess g) /\
    exact (analyzeGuess guess g) + partial (analyzeGuess guess g) <= 4 /\
    (guess = secret g -> analyzeGuess guess g = {| exact := 4; partial := 0 |}).
Proof.
  intros g guess HS HG.
  rewrite analyzeGuess_spec by assumption. cbn [exact partial].
  pose proof (filter_split_length is_exact (positions (secret g) guess)) as Hsplit.
  rewrite (positions_length _ _ HS HG) in Hsplit.
  assert (Hlg : List.length (leftover_guess (secret g) guess)
                = List.length (filter (fun p => negb (is_exact p))
                                 (positions (secret g) guess)))
    by (unfold leftover_guess; apply length_map).
  assert (Hp0 : 0 <= spec_partial (secret g) guess).
  { unfold spec_partial.
    transitivity (sumZ (fun _ : ascii => 0) decimal_digits); [reflexivity|].
    apply sumZ_le. intro d.
    pose proof (occurrences_nonneg d (leftover_secret (secret g) guess)).
    pose proof (occurrences_nonneg d (leftover_guess (secret g) guess)). lia. }
  assert (Hp1 : spec_partial (secret g) guess
                <= Z.of_nat (List.length (leftover_guess (secret g) guess))).
  { rewrite <- occurrences_sum by (now apply leftover_guess_digits).
    unfold spec_partial. apply sumZ_le. intro d. lia. }
  unfold spec_exact in *. split_all; try lia.
  intros ->. fold (spec_exact (secret g) (secret g)).
  assert (E4 : spec_exact (secret g) (secret g) = 4).
  { apply Z.eqb_eq. rewrite spec_exact_four by assumption. apply String.eqb_refl. }
  unfold spec_exact in E4. f_equal; [exact E4 | lia].
Qed.

Lemma analyzeGuess_bounds_witness :
  exact (analyzeGuess "1221" (with_secret "1122" initial))
  + partial (analyzeGuess "1221" (with_secret "1122" initial)) <= 4 /\
  analyzeGuess "1122" (with_secret "1122" initial) = {| exact := 4; partial := 0 |}.
Proof.
  destruct (analyzeGuess_bounds (with_secret "1122" initial) "1221"
              eq_refl eq_refl) as (_ & _ & A & _).
  destruct (analyzeGuess_bounds (with_secret "1122" initial) "1122"
              eq_refl eq_refl) as (_ & _ & _ & B).
  split; [exact A | apply B; reflexivity].
Defined.

Lemma leftover_swap S G :
  test_4digits S = true -> test_4digits G = true ->
  spec_exact G S = spec_exact S G /\
  leftover_secret G S = leftover_guess S G /\
  leftover_guess G S = leftover_secret S G.
Proof.
  intros HS HG.
  apply test_4digits_shape in HS. destruct HS as (a & b & c & d & -> & _).
  apply test_4digits_shape in HG. destruct HG as (a' & b' & c' & d' & -> & _).
  unfold spec_exact, leftover_secret, leftover_guess, positions.
  cbn [split_chars list_ascii_of_string combine filter].
  unfold is_exact. cbn [fst snd].
  rewrite (Ascii.eqb_sym a' a), (Ascii.eqb_sym b' b),
          (Ascii.eqb_sym c' c), (Ascii.eqb_sym d' d).
  destruct (Ascii.eqb a a'), (Ascii.eqb b b'), (Ascii.eqb c c'),
           (Ascii.eqb d d'); split_all; reflexivity.
Qed.

(** X9. The analysis is symmetric: a 4-digit guess scored against a
    4-digit secret gets the same exact and partial counts as that secret
    scored against that guess. *)
Theorem analyzeGuess_symmetric :
  forall (g : Game) (S G : string),
    test_4digits S = true -> test_4digits G = true ->
    analyzeGuess G (with_secret S g) = analyzeGuess S (with_secret G g).
Proof.
  intros g S G HS HG.
  rewrite !analyzeGuess_spec by assumption.
  cbn [secret with_secret set_secret].
  destruct (leftover_swap S G HS HG) as (E & Ls & Lg).
  unfold spec_partial. rewrite E, Ls, Lg. f_equal.
  apply sumZ_ext. intro d. apply Z.min_comm.
Qed.

Lemma analyzeGuess_symmetric_witness :
  analyzeGuess "1234" (with_secret "1122" initial)
  = analyzeGuess "1122" (with_secret "1234" initial).
Proof.
  exact (analyzeGuess_symmetric initial "1122" "1234" eq_refl eq_refl).
Defined.

(** *** The caller that saves a score *)

(** X10. The score [saveScoreWithName] hands to the leaderboard is the
    score the snapshot displays (the [exactMatches] argument 4 changes
    nothing) and is at least 100; when the durations passed to
    [setTimerMode] are non-negative, and positive when enabling, the time it
    records lies between 0 and [timerDuration]. *)
Theorem saved_score_is_displayed_score :
  forall cs : list command,
    all_permitted cs initial = true ->
    forallb duration_ok cs = true ->
    let g := fst (run cs initial) in
    sd_score (saveScore_data g) = snap_score (getState g) /\
    100 <= sd_score (saveScore_data g) /\
    0 <= sd_time (saveScore_data g) <= timerDuration g.
Proof.
  intros cs Hp Hd g.
  destruct (run_timer_invariant cs initial initial_invariant
              initial_timer_invariant Hp Hd) as [_ (T1 & T2 & T3 & _)].
  fold g in T1, T2, T3.
  unfold saveScore_data, getState.
  cbn [sd_score sd_time snap_score snap_attempts snap_timerMode
       snap_timerDuration snap_timeLeft].
  split_all.
  - reflexivity.
  - unfold calculateScore. lia.
  - destruct (timerMode g); [specialize (T3 eq_refl)|]; lia.
  - destruct (timerMode g); [specialize (T3 eq_refl)|]; lia.
Qed.

Lemma saved_score_is_displayed_score_witness :
  let g := fst (run [Init all_callbacks (draws 42 0);
                     SetTimerMode true (Some 30) (draws 42 0);
                     Tick 2; Tick 2; MakeGuess "0042" (draws 0 0)] initial) in
  sd_score (saveScore_data g) = snap_score (getState g) /\
  0 <= sd_time (saveScore_data g) <= timerDuration g.
Proof.
  intro g.
  destruct (saved_score_is_displayed_score
              [Init all_callbacks (draws 42 0);
               SetTimerMode true (Some 30) (draws 42 0);
               Tick 2; Tick 2; MakeGuess "0042" (draws 0 0)])
    as (A & _ & C); [vm_compute; reflexivity | vm_compute; reflexivity |].
  split; [exact A | exact C].
Defined.

(** *** The leaderboard's queries *)

Lemma findIndex_from_range {A} (p : A -> bool) l : forall i,
  0 <= i ->
  Leaderboard.findIndex_from i p l = -1 \/
  i <= Leaderboard.findIndex_from i p l < i + Z.of_nat (List.length l).
Proof.
  induction l as [|x l IH]; intros i Hi; cbn [Leaderboard.findIndex_from].
  - now left.
  - destruct (p x).
    + right. cbn [List.length]. lia.
    + destruct (IH (i + 1) ltac:(lia)) as [E|E]; [now left|].
      right. cbn [List.length]. lia.
Qed.

Lemma sorted_below_none s x l :
  StronglySorted Leaderboard.by_score_desc (x :: l) ->
  Leaderboard.score x <= s ->
  filter (fun e => s <? Leaderboard.score e) (x :: l) = [].
Proof.
  intros Hs Hx. apply StronglySorted_inv in Hs. destruct Hs as [_ Hall].
  assert (Hl : forall l', Forall (Leaderboard.by_score_desc x) l' ->
            filter (fun e => s <? Leaderboard.score e) l' = []).
  { induction l' as [|y l' IH]; intro H; [reflexivity|].
    inversion H as [|? ? Hy Hrest]; subst. cbn [filter].
    unfold Leaderboard.by_score_desc in Hy.
    destruct (Z.ltb_spec s (Leaderboard.score y)); [lia|]. now apply IH. }
  cbn [filter]. destruct (Z.ltb_spec s (Leaderboard.score x)); [lia|].
  now apply Hl.
Qed.

Lemma findIndex_from_sorted s l : forall i,
  StronglySorted Leaderboard.by_score_desc l -> 0 <= i ->
  let r := Leaderboard.findIndex_from i
             (fun e => Leaderboard.score e <=? s) l in
  let higher := Z.of_nat (List.length
                  (filter (fun e => s <? Leaderboard.score e) l)) in
  (r = -1 /\ higher = Z.of_nat (List.length l)) \/ r = i + higher.
Proof.
  induction l as [|x l IH]; intros i Hs Hi; cbv zeta.
  - left. split; reflexivity.
  - cbn [Leaderboard.findIndex_from].
    destruct (Z.leb_spec (Leaderboard.score x) s) as [Hx|Hx].
    + right. rewrite (sorted_below_none s x l Hs Hx). cbn. lia.
    + pose proof (StronglySorted_inv Hs) as [Hs' _].
      cbn [filter]. destruct (Z.ltb_spec s (Leaderboard.score x)); [|lia].
      cbn [List.length].
      destruct (IH (i + 1) Hs' ltac:(lia)) as [[E1 E2]|E].
      * left. split; [exact E1 | lia].
      * right. lia.
Qed.

(** X11. [getRank] always answers a rank between 1 and the number of
    entries plus one. On a leaderboard kept in descending score order it is
    one more than the number of entries with a strictly higher score, so a
    score that ties an entry shares that entry's rank. *)
Theorem getRank_counts_higher_scores :
  forall (s : Z) (scores : list Leaderboard.entry),
    1 <= Leaderboard.getRank s scores <= Z.of_nat (List.length scores) + 1 /\
    (StronglySorted Leaderboard.by_score_desc scores ->
       Leaderboard.getRank s scores =
         1 + Z.of_nat (List.length
               (filter (fun e => s <? Leaderboard.score e) scores))).
Proof.
  intros s scores. unfold Leaderboard.getRank, Leaderboard.findIndex. split.
  - destruct (findIndex_from_range (fun e => Leaderboard.score e <=? s) scores 0
                ltac:(lia)) as [E|E].
    + rewrite E. cbn. lia.
    + destruct (Z.eqb_spec
                  (Leaderboard.findIndex_from 0
                     (fun e => Leaderboard.score e <=? s) scores) (-1)); lia.
  - intro Hs.
    destruct (findIndex_from_sorted s scores 0 Hs ltac:(lia)) as [[E1 E2]|E].
    + rewrite E1, Z.eqb_refl. cbv zeta in E2. lia.
    + cbv zeta in E. rewrite E.
      destruct (Z.eqb_spec
                  (0 + Z.of_nat (List.length
                     (filter (fun e => s <? Leaderboard.score e) scores)))
                  (-1)); lia.
Qed.

Lemma getRank_counts_higher_scores_witness :
  Leaderboard.getRank 700
    [sample_entry 900 "easy"; sample_entry 700 "easy";
     sample_entry 700 "hard"; sample_entry 100 "easy"] = 2.
Proof.
  destruct (getRank_counts_higher_scores 700
              [sample_entry 900 "easy"; sample_entry 700 "easy";
               sample_entry 700 "hard"; sample_entry 100 "easy"])
    as [_ H].
  rewrite H; [reflexivity|].
  repeat (constructor; [|repeat constructor;
                         unfold Leaderboard.by_score_desc; cbn; lia]).
  constructor.
Defined.

Lemma sorted_filter (p : Leaderboard.entry -> bool) l :
  StronglySorted Leaderboard.by_score_desc l ->
  StronglySorted Leaderboard.by_score_desc (filter p l).
Proof.
  induction 1 as [|x l Hs IH Hall]; cbn [filter]; [constructor|].
  destruct (p x); [|exact IH]. constructor; [exact IH|].
  rewrite Forall_forall in *. intros y Hy. apply filter_In in Hy.
  now apply Hall.
Qed.

Lemma firstn_member {A} n : forall (l : list A) x,
  In x (firstn n l) -> In x l.
Proof.
  induction n as [|n IH]; intros [|z l] x Hx; cbn in *; try contradiction.
  destruct Hx as [->|Hx]; [now left | right; now apply IH].
Qed.

Lemma sorted_firstn n : forall l,
  StronglySorted Leaderboard.by_score_desc l ->
  StronglySorted Leaderboard.by_score_desc (firstn n l).
Proof.
  induction n as [|n IH]; intros l Hs; [constructor|].
  destruct l as [|x l]; [constructor|]. cbn [firstn].
  apply StronglySorted_inv in Hs. destruct Hs as [Hs Hall].
  constructor; [now apply IH|].
  rewrite Forall_forall in *. intros y Hy. apply Hall.
  now apply (firstn_member n).
Qed.

(** X12. [getTopScores(limit, level)] with a non-negative limit returns
    the first [limit] entries of [getScores(level)]: at most [limit] of
    them, all of the requested difficulty unless it is 'all', and in
    descending score order whenever the leaderboard is. A negative limit
    instead drops that many entries from the end: the result is the
    leading part of [getScores(level)] without its last [-limit] entries. *)
Theorem getTopScores_prefix :
  forall (limit : Z) (level : string) (scores : list Leaderboard.entry),
    (0 <= limit ->
       Leaderboard.getTopScores limit level scores
         = firstn (Z.to_nat limit) (Leaderboard.getScores level scores) /\
       Z.of_nat (List.length (Leaderboard.getTopScores limit level scores))
         = Z.min limit
             (Z.of_nat (List.length (Leaderboard.getScores level scores)))) /\
    (limit < 0 ->
       Leaderboard.getTopScores limit level scores
         = firstn
             (List.length (Leaderboard.getScores level scores)
              - Z.to_nat (- limit))
             (Leaderboard.getScores level scores) /\
       Z.of_nat (List.length (Leaderboard.getTopScores limit level scores))
         = Z.max 0
             (Z.of_nat (List.length (Leaderboard.getScores level scores))
              + limit)) /\
    (level <> "all" ->
       Forall (fun e => Leaderboard.difficulty e = level)
         (Leaderboard.getTopScores limit level scores)) /\
    (StronglySorted Leaderboard.by_score_desc scores ->
       StronglySorted Leaderboard.by_score_desc
         (Leaderboard.getTopScores limit level scores)).
Proof.
  intros limit level scores.
  unfold Leaderboard.getTopScores, Leaderboard.getScores, Leaderboard.slice0.
  set (filtered := if String.eqb level "all" then scores
                   else filter (fun s => String.eqb (Leaderboard.difficulty s) level)
                          scores).
  split_all.
  - intro Hl. destruct (Z.ltb_spec limit 0); [lia|]. split.
    + destruct (Z.le_gt_cases limit (Z.of_nat (List.length filtered))).
      * now rewrite Z.min_l.
      * rewrite Z.min_r, Nat2Z.id by lia.
        rewrite !firstn_all2; auto; lia.
    + rewrite length_firstn. lia.
  - intro Hl. destruct (Z.ltb_spec limit 0); [|lia].
    split; [f_equal; lia | rewrite length_firstn; lia].
  - intro Hne. apply Forall_forall. intros e He.
    apply firstn_member in He. subst filtered.
    destruct (String.eqb_spec level "all"); [contradiction|].
    apply filter_In in He. destruct He as [_ He]. now apply String.eqb_eq.
  - intro Hs. apply sorted_firstn. subst filtered.
    destruct (String.eqb level "all"); [exact Hs | now apply sorted_filter].
Qed.

Lemma getTopScores_prefix_witness :
  let scores := [sample_entry 900 "easy"; sample_entry 700 "hard";
                 sample_entry 500 "easy"; sample_entry 100 "easy"] in
  Leaderboard.getTopScores 2 "easy" scores
    = [sample_entry 900 "easy"; sample_entry 500 "easy"] /\
  Leaderboard.getTopScores (-1) "all" scores
    = [sample_entry 900 "easy"; sample_entry 700 "hard";
       sample_entry 500 "easy"].
Proof.
  intros scores.
  destruct (getTopScores_prefix 2 "easy" scores) as ([A _] & _); [lia|].
  destruct (getTopScores_prefix (-1) "all" scores) as (_ & B & _).
  destruct B as [B _]; [lia|].
  split; [rewrite A; reflexivity | rewrite B; reflexivity].
Defined.
